(** * ZiGate driver: command correlation and dispatch

    A shallow embedding of [src/adapter/zigate/driver/zigate.ts]: the
    property-path resolver, the waitress validator, [sendCommand], [close],
    the port event handlers and [onSerialData], with the collaborators of
    the driver (catalog, codec, transport, waiter registry, listeners) taken
    as explicit parameters or modelled from their contract. *)

From Stdlib Require Import ZArith List String Ascii Bool Lia.
From Stdlib Require Import DecimalString Permutation.
From Stdlib Require HexadecimalString HexadecimalZ HexadecimalPos.
Import ListNotations.
Local Open Scope string_scope.
Local Open Scope Z_scope.
Local Set Warnings "-register-all".

(** ** JavaScript values and exceptions *)

(** Values a [throw] can carry in the driver.  [WrappedError p c] is
    [new Error(p + c)]. *)
Inductive JsError : Type :=
| TypeError (msg : string)
| RangeError (msg : string)
| ExternalError (msg : string)
| TimeoutError (msg : string)
| WrappedError (prefix : string) (cause : JsError).

(** A computation that either returns or throws. *)
Inductive result (A : Type) : Type :=
| Ok (a : A)
| Throw (e : JsError).
Arguments Ok {A} a.
Arguments Throw {A} e.

Definition rbind {A B} (r : result A) (k : A -> result B) : result B :=
  match r with
  | Ok a => k a
  | Throw e => Throw e
  end.

(** [try { body } catch { handler }] on a pure computation. *)
Definition rcatch {A} (body : result A) (handler : JsError -> result A) : result A :=
  match body with
  | Ok a => Ok a
  | Throw e => handler e
  end.

Declare Scope js_scope.
Delimit Scope js_scope with js.
Notation "x <- c1 ;; c2" := (rbind c1 (fun x => c2))
  (at level 61, c1 at next level, right associativity) : js_scope.

(** The values that flow through payloads, rules and extra parameters.
    An object is its list of own properties; reading a property either
    yields a value or throws (an accessor whose getter throws).  Numbers
    are the integers the protocol carries; members inherited from a
    prototype are outside the model. *)
Inductive jsval : Type :=
| VUndefined
| VNull
| VBool (b : bool)
| VNum (n : Z)
| VStr (s : string)
| VBuf (bytes : list Z)
| VObj (props : list (string * result jsval)).

(** JavaScript truthiness, as tested by [prev && ...]. *)
Definition truthy (v : jsval) : bool :=
  match v with
  | VUndefined | VNull => false
  | VBool b => b
  | VNum n => negb (n =? 0)
  | VStr s => negb (String.eqb s "")
  | VBuf _ | VObj _ => true
  end.

Fixpoint own_property (k : string) (props : list (string * result jsval))
  : option (result jsval) :=
  match props with
  | [] => None
  | (k', r) :: rest => if String.eqb k k' then Some r else own_property k rest
  end.

(** [v[k]] on a value that is neither [undefined] nor [null]: the own
    properties of an object.  What a string, a [Buffer] or a prototype
    answers to a key ([length], an index, [constructor]) is left out and
    reads as [undefined] here. *)
Definition get_index (v : jsval) (k : string) : result jsval :=
  match v with
  | VObj props =>
      match own_property k props with
      | Some r => r
      | None => Ok VUndefined
      end
  | _ => Ok VUndefined
  end.

(** [v.k]: throws a [TypeError] on [undefined] and [null]. *)
Definition get_member (v : jsval) (k : string) : result jsval :=
  match v with
  | VUndefined | VNull => Throw (TypeError ("Cannot read properties of undefined (reading '" ++ k ++ "')"))
  | _ => get_index v k
  end.

(** [x == undefined]: loose equality holds for [undefined] and [null] only. *)
Definition loose_eq_undefined (v : jsval) : bool :=
  match v with
  | VUndefined | VNull => true
  | _ => false
  end.

(** [x === n] for a number literal [n]. *)
Definition strict_eq_num (v : jsval) (n : Z) : bool :=
  match v with
  | VNum m => m =? n
  | _ => false
  end.

(** [s.split(sep)] for a one-character separator. *)
Fixpoint split (sep : ascii) (s : string) : list string :=
  match s with
  | EmptyString => [EmptyString]
  | String c rest =>
      if Ascii.eqb c sep then EmptyString :: split sep rest
      else match split sep rest with
           | hd :: tl => String c hd :: tl
           | [] => [String c EmptyString]
           end
  end.

(** The [path] argument of [resolve] has type [string | []]. *)
Inductive path : Type :=
| PathString (s : string)
| PathEmptyArray.

(** [properties.reduce((prev, curr) => prev && prev[curr], obj)] *)
Fixpoint reduce (properties : list string) (prev : jsval) : result jsval :=
  match properties with
  | [] => Ok prev
  | curr :: rest =>
      if truthy prev
      then (next <- get_index prev curr ;; reduce rest next)%js
      else reduce rest prev
  end.

(** [resolve(path, obj, separator)] (zigate.ts:44-47). *)
Definition resolve_sep (p : path) (obj : jsval) (separator : ascii) : result jsval :=
  let properties :=
    match p with
    | PathEmptyArray => []
    | PathString s => split separator s
    end in
  reduce properties obj.

(** [resolve] with the default separator ['.'], as every call site has it. *)
Definition resolve (p : path) (obj : jsval) : result jsval :=
  resolve_sep p obj "."%char.

(** ** Catalog types (commandType.ts, ziGateObject.ts) *)

Record ZiGateResponseMatcherRule : Type := {
  receivedProperty : string;
  matcher : jsval -> jsval -> result bool;
  expectedProperty : option string;
  expectedExtraParameter : option string;
  value : jsval
}.

Definition ZiGateResponseMatcher : Type := list ZiGateResponseMatcherRule.

(** [ziGateObject.command]: [response] is [None] when the catalog entry
    declares no response array, [waitStatus] is [None] when it is left
    out. *)
Record ZiGateCommandType : Type := {
  response : option (list ZiGateResponseMatcher);
  waitStatus : option bool
}.

Record ZiGateObject : Type := {
  code : Z;
  payload : jsval;
  command : ZiGateCommandType
}.

(** A [ZiGateObject] as the rule paths read it: [code] and [payload].
    [command] and the other members of the class are left out, and a
    path through them reads as [undefined] here. *)
Definition as_jsval (o : ZiGateObject) : jsval :=
  VObj [("code", Ok (VNum (code o))); ("payload", Ok (payload o))].

Record WaitressMatcher : Type := {
  ziGateObject : ZiGateObject;
  rules : ZiGateResponseMatcher;
  extraParameters : option jsval
}.

(** Modelled from the spec: the comparator [equal] of commandType.ts, which
    is not among the sources ("equality is the common case").  Strict
    equality; the two operands of a rule never share an object, so objects
    and buffers compare unequal. *)
Definition equal (expected received : jsval) : result bool :=
  Ok match expected, received with
     | VUndefined, VUndefined => true
     | VNull, VNull => true
     | VBool a, VBool b => Bool.eqb a b
     | VNum a, VNum b => a =? b
     | VStr a, VStr b => String.eqb a b
     | _, _ => false
     end.

(** ** The waitress validator (zigate.ts:320-338) *)

Definition is_some {A} (o : option A) : bool :=
  match o with Some _ => true | None => false end.

(** The three-way choice of the expected value (zigate.ts:324-330). *)
Definition expected_value (m : WaitressMatcher) (rule : ZiGateResponseMatcherRule)
  : result jsval :=
  match loose_eq_undefined (value rule), expectedProperty rule, expectedExtraParameter rule with
  | true, Some ep, _ => resolve (PathString ep) (as_jsval (ziGateObject m))
  | true, None, Some eep =>
      resolve (PathString eep)
        match extraParameters m with Some o => o | None => VUndefined end
  | _, _, _ => Ok (value rule)
  end.

Definition received_value (received : ZiGateObject) (rule : ZiGateResponseMatcherRule)
  : result jsval :=
  resolve (PathString (receivedProperty rule)) (as_jsval received).

(** The body of the [try] of the inner [validator]. *)
Definition validator_body (received : ZiGateObject) (m : WaitressMatcher)
  (rule : ZiGateResponseMatcherRule) : result bool :=
  (expectedValue <- expected_value m rule ;;
   receivedValue <- received_value received rule ;;
   matcher rule expectedValue receivedValue)%js.

Definition validator (received : ZiGateObject) (m : WaitressMatcher)
  (rule : ZiGateResponseMatcherRule) : result bool :=
  rcatch (validator_body received m rule) (fun _ => Ok false).

(** [Array.prototype.every]: stops at the first falsy answer and lets an
    exception of the callback through. *)
Fixpoint every {A} (f : A -> result bool) (l : list A) : result bool :=
  match l with
  | [] => Ok true
  | x :: rest => (b <- f x ;; if b then every f rest else Ok false)%js
  end.

Definition waitressValidator (received : ZiGateObject) (m : WaitressMatcher)
  : result bool :=
  every (validator received m) (rules m).

(** ** The waiter registry (utils/waitress.ts)

    The registry is a collaborator of the driver; the driver supplies the
    validator and the timeout formatter. *)

Record Waiter : Type := {
  ID : nat;
  waiter_matcher : WaitressMatcher;
  waiter_timeout : Z;
  timer : bool
}.

(** The promise handed out for one waiter. *)
Inductive PromiseState : Type :=
| Pending
| Fulfilled (o : ZiGateObject)
| Rejected (e : JsError).

(** [waiters] is kept in registration order; [promises] records the
    settled promises by waiter ID, every other promise is pending. *)
Record Waitress : Type := {
  waiters : list Waiter;
  currentID : nat;
  promises : list (nat * PromiseState)
}.

Module Registry.

Definition empty : Waitress :=
  {| waiters := []; currentID := 0%nat; promises := [] |}.

Fixpoint lookup (id : nat) (ws : list Waiter) : option Waiter :=
  match ws with
  | [] => None
  | w :: rest => if Nat.eqb (ID w) id then Some w else lookup id rest
  end.

Definition registered (id : nat) (w : Waitress) : bool :=
  is_some (lookup id (waiters w)).

Fixpoint promise_in (id : nat) (ps : list (nat * PromiseState)) : PromiseState :=
  match ps with
  | [] => Pending
  | (i, s) :: rest => if Nat.eqb i id then s else promise_in id rest
  end.

Definition promise (id : nat) (w : Waitress) : PromiseState :=
  promise_in id (promises w).

Definition settle (id : nat) (s : PromiseState) (w : Waitress) : Waitress :=
  {| waiters := filter (fun x => negb (Nat.eqb (ID x) id)) (waiters w);
     currentID := currentID w;
     promises := match promise id w with
                 | Pending => (id, s) :: promises w
                 | _ => promises w
                 end |}.

(** Modelled from the spec: [register(matcher, deadline)] of the Waiter
    Registry, which hands out a fresh ID and does not start the timer. *)
Definition waitFor (m : WaitressMatcher) (timeout : Z) (w : Waitress) : nat * Waitress :=
  (currentID w,
   {| waiters := waiters w ++
                 [{| ID := currentID w; waiter_matcher := m;
                     waiter_timeout := timeout; timer := false |}];
      currentID := S (currentID w);
      promises := promises w |}).

(** Modelled from the spec: [start()] of an expectation handle, which
    starts the timer of a registered waiter and hands out its promise. *)
Definition start (id : nat) (w : Waitress) : Waitress :=
  {| waiters := map (fun x => if Nat.eqb (ID x) id
                              then {| ID := ID x; waiter_matcher := waiter_matcher x;
                                      waiter_timeout := waiter_timeout x; timer := true |}
                              else x) (waiters w);
     currentID := currentID w;
     promises := promises w |}.

(** Modelled from the spec: [remove(id)] of the Waiter Registry; the
    promise of a removed waiter stays pending. *)
Definition remove (id : nat) (w : Waitress) : Waitress :=
  {| waiters := filter (fun x => negb (Nat.eqb (ID x) id)) (waiters w);
     currentID := currentID w;
     promises := promises w |}.

Fixpoint first_match (validate : ZiGateObject -> WaitressMatcher -> result bool)
  (o : ZiGateObject) (ws : list Waiter) : result (option nat) :=
  match ws with
  | [] => Ok None
  | w :: rest =>
      (b <- validate o (waiter_matcher w) ;;
       if b then Ok (Some (ID w)) else first_match validate o rest)%js
  end.

(** Modelled from the spec: [settle(DecodedObject)] of the Waiter
    Registry, which offers the object to every pending expectation and
    settles and removes the first whose matcher passes. *)
Definition resolve (validate : ZiGateObject -> WaitressMatcher -> result bool)
  (o : ZiGateObject) (w : Waitress) : result Waitress :=
  (hit <- first_match validate o (waiters w) ;;
   Ok match hit with
      | Some id => settle id (Fulfilled o) w
      | None => w
      end)%js.

(** Modelled from the spec: deadline expiry in the Waiter Registry, which
    settles the expectation with a timeout failure and removes it.  Only
    a registered waiter whose timer runs can expire. *)
Definition expire (format : WaitressMatcher -> Z -> string) (id : nat) (w : Waitress)
  : Waitress :=
  match lookup id (waiters w) with
  | Some x =>
      if timer x
      then settle id (Rejected (TimeoutError (format (waiter_matcher x) (waiter_timeout x)))) w
      else w
  | None => w
  end.

End Registry.

(** ** Driver state and effects *)

Module timeouts.
Definition reset : Z := 30000.
Definition default : Z := 10000.
End timeouts.

Inductive Port : Type :=
| SerialPortHandle
| SocketPortHandle.

(** The events the driver emits to its listeners. *)
Inductive DriverEvent : Type :=
| EvClose
| EvReceived (o : ZiGateObject)
| EvLeaveIndication (o : ZiGateObject)
| EvDeviceAnnounce (networkAddress ieeeAddr : jsval).

(** What the driver does to its collaborators, in program order. *)
Inductive Effect : Type :=
| EWaitFor (id : nat)
| EStart (id : nat)
| ERemove (id : nat)
| EWrite (port : Port) (buffer : list Z)
| EQueueClear
| EFlushAndClose
| EDestroy
| EEmit (ev : DriverEvent)
| ELogError (e : JsError).

(** The fields of the [ZiGate] instance; [serialPort] and [socketPort] say
    whether the field is set, [trace] collects the effects so far. *)
Record ZiGate : Type := {
  initialized : bool;
  serialPort : bool;
  socketPort : bool;
  portWrite : option Port;
  waitress : Waitress;
  trace : list Effect
}.

(** The collaborators the driver calls into.  [Frame] is the codec's frame
    type; the message and status codes are those of constants.ts. *)
Record Collaborators (Frame : Type) : Type := {
  createRequest : Z -> jsval -> result ZiGateObject;
  toZiGateFrame : ZiGateObject -> result Frame;
  toBuffer : Frame -> result (list Z);
  write : Port -> list Z -> result unit;
  asyncFlushAndClose : result unit;
  newZiGateFrame : list Z -> result Frame;
  readMsgCode : Frame -> result Z;
  fromZiGateFrame : Frame -> result ZiGateObject;
  readIeeeAddr : list Z -> result jsval;
  listeners : DriverEvent -> result unit;
  JSON_stringify : WaitressMatcher -> string;
  E_SL_MSG_STATUS_SUCCESS : Z;
  MessageCode_Status : Z;
  MessageCode_DataIndication : Z;
  MessageCode_LeaveIndication : Z;
  MessageCode_DeviceAnnounce : Z
}.
Arguments createRequest {Frame}.
Arguments toZiGateFrame {Frame}.
Arguments toBuffer {Frame}.
Arguments write {Frame}.
Arguments asyncFlushAndClose {Frame}.
Arguments newZiGateFrame {Frame}.
Arguments readMsgCode {Frame}.
Arguments fromZiGateFrame {Frame}.
Arguments readIeeeAddr {Frame}.
Arguments listeners {Frame}.
Arguments JSON_stringify {Frame}.
Arguments E_SL_MSG_STATUS_SUCCESS {Frame}.
Arguments MessageCode_Status {Frame}.
Arguments MessageCode_DataIndication {Frame}.
Arguments MessageCode_LeaveIndication {Frame}.
Arguments MessageCode_DeviceAnnounce {Frame}.

(** A method body: it runs on the instance, returns or throws, and leaves
    the instance as it is at that point (a [throw] undoes nothing). *)
Definition M (A : Type) : Type := ZiGate -> result A * ZiGate.

Definition mret {A} (a : A) : M A := fun d => (Ok a, d).

Definition mbind {A B} (c : M A) (k : A -> M B) : M B :=
  fun d =>
    match c d with
    | (Ok a, d') => k a d'
    | (Throw e, d') => (Throw e, d')
    end.

Definition mthrow {A} (e : JsError) : M A := fun d => (Throw e, d).

Definition mcatch {A} (body : M A) (handler : JsError -> M A) : M A :=
  fun d =>
    match body d with
    | (Ok a, d') => (Ok a, d')
    | (Throw e, d') => handler e d'
    end.

Definition lift {A} (r : result A) : M A := fun d => (r, d).

Definition this : M ZiGate := fun d => (Ok d, d).

Declare Scope drv_scope.
Delimit Scope drv_scope with drv.
Notation "x <- c1 ;; c2" := (mbind c1 (fun x => c2))
  (at level 61, c1 at next level, right associativity) : drv_scope.
Notation "c1 ;; c2" := (mbind c1 (fun _ => c2))
  (at level 61, right associativity) : drv_scope.

Definition effect (e : Effect) : M unit :=
  fun d => (Ok tt,
            {| initialized := initialized d; serialPort := serialPort d;
               socketPort := socketPort d; portWrite := portWrite d;
               waitress := waitress d; trace := trace d ++ [e] |}).

Definition set_initialized (b : bool) : M unit :=
  fun d => (Ok tt,
            {| initialized := b; serialPort := serialPort d;
               socketPort := socketPort d; portWrite := portWrite d;
               waitress := waitress d; trace := trace d |}).

Definition set_portWrite (p : option Port) : M unit :=
  fun d => (Ok tt,
            {| initialized := initialized d; serialPort := serialPort d;
               socketPort := socketPort d; portWrite := p;
               waitress := waitress d; trace := trace d |}).

Definition set_waitress (w : Waitress) : M unit :=
  fun d => (Ok tt,
            {| initialized := initialized d; serialPort := serialPort d;
               socketPort := socketPort d; portWrite := portWrite d;
               waitress := w; trace := trace d |}).

(** [this.emit(ev)]: the listeners run at once and may throw. *)
Definition emit {Frame} (env : Collaborators Frame) (ev : DriverEvent) : M unit :=
  (effect (EEmit ev) ;; lift (listeners env ev))%drv.

(** [this.waitress.waitFor(matcher, timeout)], answering the waiter's ID. *)
Definition waitress_waitFor (m : WaitressMatcher) (timeout : Z) : M nat :=
  (d <- this ;;
   let '(id, w) := Registry.waitFor m timeout (waitress d) in
   set_waitress w ;; effect (EWaitFor id) ;; mret id)%drv.

(** The public [waitFor(matcher, timeout = timeouts.default)]
    (zigate.ts:177-182). *)
Definition waitFor (m : WaitressMatcher) (timeout : option Z) : M nat :=
  waitress_waitFor m match timeout with Some t => t | None => timeouts.default end.

(** [waiter.start().promise]: the promise goes by the waiter's ID. *)
Definition waiter_start (id : nat) : M nat :=
  (d <- this ;;
   set_waitress (Registry.start id (waitress d)) ;; effect (EStart id) ;; mret id)%drv.

Definition waitress_remove (id : nat) : M unit :=
  (d <- this ;;
   set_waitress (Registry.remove id (waitress d)) ;; effect (ERemove id))%drv.

(** [this.waitress.resolve(ziGateObject)] with the driver's validator. *)
Definition waitress_resolve (o : ZiGateObject) : M unit :=
  (d <- this ;;
   w <- lift (Registry.resolve waitressValidator o (waitress d)) ;;
   set_waitress w)%drv.

(** [waitressTimeoutFormatter] (zigate.ts:316-318). *)
Definition waitressTimeoutFormatter {Frame} (env : Collaborators Frame)
  (m : WaitressMatcher) (timeout : Z) : string :=
  JSON_stringify env m ++ " after " ++ NilZero.string_of_int (Z.to_int timeout) ++ "ms".

(** [timeout || timeouts.default] *)
Definition timeout_or_default (timeout : option Z) : Z :=
  match timeout with
  | Some t => if t =? 0 then timeouts.default else t
  | None => timeouts.default
  end.

(** ** sendCommand (zigate.ts:74-138) *)

(** What a promise of [sendCommand] is rejected with: an [Error], or the
    status object itself. *)
Inductive Reason : Type :=
| ReasonError (e : JsError)
| ReasonObject (o : ZiGateObject).

Inductive Settlement : Type :=
| Resolved (o : ZiGateObject)
| RejectedWith (r : Reason).

(** Where one call of [sendCommand] stands: suspended at the [await] of
    line 124, returned [Promise.race(waiters)] that has not settled yet, or
    settled.  Promises of waiters go by the waiter's ID. *)
Inductive SendCommand : Type :=
| AwaitStatus (resultPromise : nat) (waiters : list nat) (waitersId : list nat)
| Race (waiters : list nat)
| Settled (s : Settlement).

(** [ziGateObject.command.waitStatus !== false] *)
Definition waitStatus_not_false (o : ZiGateObject) : bool :=
  match waitStatus (command o) with
  | Some false => false
  | _ => true
  end.

(** The [forEach] of lines 102-106; the accumulator holds [waiters] and
    [waitersId]. *)
Fixpoint forEach_response (o : ZiGateObject) (extra : option jsval) (timeout : option Z)
  (rs : list ZiGateResponseMatcher) (acc : list nat * list nat) : M (list nat * list nat) :=
  match rs with
  | [] => mret acc
  | r :: rest =>
      (id <- waitress_waitFor
               {| ziGateObject := o; rules := r; extraParameters := extra |}
               (timeout_or_default timeout) ;;
       p <- waiter_start id ;;
       forEach_response o extra timeout rest
         ((fst acc ++ [p])%list, (snd acc ++ [id])%list))%drv
  end.

(** [ruleStatus] of lines 111-114. *)
Definition ruleStatus {Frame} (env : Collaborators Frame) (o : ZiGateObject)
  : ZiGateResponseMatcher :=
  [ {| receivedProperty := "code"; matcher := equal;
       expectedProperty := None; expectedExtraParameter := None;
       value := VNum (MessageCode_Status env) |};
    {| receivedProperty := "payload.packetType"; matcher := equal;
       expectedProperty := None; expectedExtraParameter := None;
       value := VNum (code o) |} ].

(** [this.portWrite!.write(sendBuffer)] *)
Definition port_write {Frame} (env : Collaborators Frame) (sendBuffer : list Z) : M unit :=
  (d <- this ;;
   match portWrite d with
   | None => mthrow (TypeError "Cannot read properties of undefined (reading 'write')")
   | Some p => effect (EWrite p sendBuffer) ;; lift (write env p sendBuffer)
   end)%drv.

(** The [catch] of lines 133-136. *)
Definition sendCommand_catch (e : JsError) : M SendCommand :=
  (effect (ELogError e) ;;
   mret (Settled (RejectedWith (ReasonError (WrappedError "sendCommand error: " e)))))%drv.

(** Lines 101-118: the expectations registered ahead of the write.  The
    answer holds [waiters], [waitersId] and [resultPromise]. *)
Definition sendCommand_register {Frame} (env : Collaborators Frame)
  (o : ZiGateObject) (timeout : option Z) (extra : option jsval) (disableResponse : bool)
  : M (list nat * list nat * option nat) :=
  (ws <- (if negb disableResponse
          then match response (command o) with
               | Some rs => forEach_response o extra timeout rs ([], [])
               | None => mret ([], [])
               end
          else mret ([], [])) ;;
   resultPromise <-
     (if waitStatus_not_false o
      then (id <- waitress_waitFor
                    {| ziGateObject := o; rules := ruleStatus env o;
                       extraParameters := None |}
                    (timeout_or_default timeout) ;;
            p <- waiter_start id ;;
            mret (Some p))
      else mret None) ;;
   mret (ws, resultPromise))%drv.

(** Lines 84-123, up to the [await] or the [return] of line 132. *)
Definition sendCommand {Frame} (env : Collaborators Frame)
  (cmdCode : Z) (cmdPayload : jsval) (timeout : option Z) (extra : option jsval)
  (disableResponse : bool) : M SendCommand :=
  mcatch
    (o <- lift (createRequest env cmdCode cmdPayload) ;;
     frame <- lift (toZiGateFrame env o) ;;
     sendBuffer <- lift (toBuffer env frame) ;;
     reg <- sendCommand_register env o timeout extra disableResponse ;;
     port_write env sendBuffer ;;
     match waitStatus_not_false o, snd reg with
     | true, Some resultPromise =>
         mret (AwaitStatus resultPromise (fst (fst reg)) (snd (fst reg)))
     | _, _ => mret (Race (fst (fst reg)))
     end)%drv
    sendCommand_catch.

Fixpoint remove_all (ids : list nat) : M unit :=
  match ids with
  | [] => mret tt
  | id :: rest => (waitress_remove id ;; remove_all rest)%drv
  end.

(** Lines 125-132, once [await resultPromise] has answered. *)
Definition sendCommand_after_status {Frame} (env : Collaborators Frame)
  (statusResponse : ZiGateObject) (waiters waitersId : list nat) : M SendCommand :=
  (status <- lift (get_member (payload statusResponse) "status") ;;
   if negb (strict_eq_num status (E_SL_MSG_STATUS_SUCCESS env))
   then (remove_all waitersId ;;
         mret (Settled (RejectedWith (ReasonObject statusResponse))))
   else if Nat.eqb (List.length waiters) 0
        then mret (Settled (Resolved statusResponse))
        else mret (Race waiters))%drv.

(** [Promise.race(waiters)]: the first settled promise in array order, if
    any. *)
Fixpoint race (waiters : list nat) (w : Waitress) : option Settlement :=
  match waiters with
  | [] => None
  | p :: rest =>
      match Registry.promise p w with
      | Pending => race rest w
      | Fulfilled o => Some (Resolved o)
      | Rejected e => Some (RejectedWith (ReasonError e))
      end
  end.

(** The continuation at the [await]: nothing happens while the status
    promise is pending; a rejection is thrown into the [try]. *)
Definition resume_await {Frame} (env : Collaborators Frame) (c : SendCommand)
  : M SendCommand :=
  match c with
  | AwaitStatus resultPromise ws ids =>
      (d <- this ;;
       match Registry.promise resultPromise (waitress d) with
       | Pending => mret c
       | Fulfilled statusResponse =>
           mcatch (sendCommand_after_status env statusResponse ws ids) sendCommand_catch
       | Rejected e => sendCommand_catch e
       end)%drv
  | _ => mret c
  end.

Definition resume_race (c : SendCommand) : M SendCommand :=
  match c with
  | Race ws =>
      (d <- this ;;
       match race ws (waitress d) with
       | Some s => mret (Settled s)
       | None => mret c
       end)%drv
  | _ => mret c
  end.

(** The reactions of one call of [sendCommand] that run once the
    registry has changed. *)
Definition resume {Frame} (env : Collaborators Frame) (c : SendCommand) : M SendCommand :=
  (c' <- resume_await env c ;; resume_race c')%drv.

(** ** Lifecycle (zigate.ts:153-175, 243-262) *)

Definition onPortError (error : JsError) : M unit :=
  effect (ELogError error).

Definition onPortClose {Frame} (env : Collaborators Frame) : M unit :=
  (set_initialized false ;; emit env EvClose)%drv.

(** A listener the transport runs while the driver waits for it: the
    instance is as the listener leaves it, and what the listener throws
    goes to the transport, not to the driver. *)
Definition delivered (listener : M unit) : M unit :=
  fun d => (Ok tt, snd (listener d)).

(** [close()].  What the serial port answers to the release is
    [asyncFlushAndClose env].  A port that has closed raises its
    ['close'] event before that answer comes; [closeListener] says
    whether the listener of line 203 is bound on the port, and if it is,
    [onPortClose] runs then, inside the [await].  A socket raises its
    ['close'] event only after [destroy()] has returned: that is an event
    of its own, [PortClosed] below. *)
Definition close {Frame} (env : Collaborators Frame) (closeListener : bool) : M unit :=
  (effect EQueueClear ;;
   d <- this ;;
   (if initialized d
    then (set_portWrite None ;;
          set_initialized false ;;
          if serialPort d
          then mcatch
                 (effect EFlushAndClose ;;
                  lift (asyncFlushAndClose env) ;;
                  if closeListener then delivered (onPortClose env) else mret tt)
                 (fun error => emit env EvClose ;; mthrow error)
          else if socketPort d then effect EDestroy else mret tt)
    else mret tt) ;;
   emit env EvClose)%drv.

(** The ['error'] listener of the socket (lines 243-248); the [reject()]
    of the promise of [open()] has no part in the state. *)
Definition onSocketError (error : JsError) : M unit :=
  (effect (ELogError error) ;; set_initialized false)%drv.

(** ** Inbound frames (zigate.ts:264-314) *)

(** [buf.readUInt16LE(offset)] *)
Definition readUInt16LE (v : jsval) (offset : nat) : result jsval :=
  match v with
  | VUndefined | VNull =>
      Throw (TypeError "Cannot read properties of undefined (reading 'readUInt16LE')")
  | VBuf bytes =>
      match nth_error bytes offset, nth_error bytes (S offset) with
      | Some lo, Some hi => Ok (VNum (lo + 256 * hi))
      | _, _ => Throw (RangeError "The value of offset is out of range")
      end
  | _ => Throw (TypeError "readUInt16LE is not a function")
  end.

(** [buf.slice(from, to)] *)
Definition slice (v : jsval) (from to : nat) : result (list Z) :=
  match v with
  | VUndefined | VNull =>
      Throw (TypeError "Cannot read properties of undefined (reading 'slice')")
  | VBuf bytes => Ok (firstn (to - from) (skipn from bytes))
  | _ => Throw (TypeError "slice is not a function")
  end.

(** The [switch (code)] of lines 281-307. *)
Definition dispatch {Frame} (env : Collaborators Frame) (msgCode : Z) (o : ZiGateObject)
  : M unit :=
  if msgCode =? MessageCode_DataIndication env then
    (profileID <- lift (get_member (payload o) "profileID") ;;
     if strict_eq_num profileID 0 then
       (clusterID <- lift (get_member (payload o) "clusterID") ;;
        if strict_eq_num clusterID 19 then
          (inner <- lift (get_member (payload o) "payload") ;;
           networkAddress <- lift (readUInt16LE inner 1) ;;
           bytes <- lift (slice inner 3 11) ;;
           ieeeAddr <- lift (readIeeeAddr env bytes) ;;
           emit env (EvDeviceAnnounce networkAddress ieeeAddr))
        else mret tt)
     else if strict_eq_num profileID 260 then emit env (EvReceived o)
     else mret tt)%drv
  else if msgCode =? MessageCode_LeaveIndication env then
    emit env (EvLeaveIndication o)
  else if msgCode =? MessageCode_DeviceAnnounce env then
    (shortAddress <- lift (get_member (payload o) "shortAddress") ;;
     ieee <- lift (get_member (payload o) "ieee") ;;
     emit env (EvDeviceAnnounce shortAddress ieee))%drv
  else mret tt.

Definition onSerialData {Frame} (env : Collaborators Frame) (buffer : list Z) : M unit :=
  mcatch
    (frame <- lift (newZiGateFrame env buffer) ;;
     msgCode <- lift (readMsgCode env frame) ;;
     mcatch
       (o <- lift (fromZiGateFrame env frame) ;;
        waitress_resolve o ;;
        dispatch env msgCode o)
       (fun error => effect (ELogError error)))%drv
    (fun error => effect (ELogError error)).

(** ** The event loop around one command *)

(** What can happen to the driver while a command is in flight.
    [CloseCalled closeListener] is a call of [close()], with
    [closeListener] as in [close]. *)
Inductive Event : Type :=
| SerialData (buffer : list Z)
| TimerExpired (id : nat)
| PortClosed
| PortErrored (e : JsError)
| SocketErrored (e : JsError)
| CloseCalled (closeListener : bool).

Definition handle {Frame} (env : Collaborators Frame) (ev : Event) : M unit :=
  match ev with
  | SerialData buffer => onSerialData env buffer
  | TimerExpired id =>
      (d <- this ;;
       set_waitress (Registry.expire (waitressTimeoutFormatter env) id (waitress d)))%drv
  | PortClosed => onPortClose env
  | PortErrored e => onPortError e
  | SocketErrored e => onSocketError e
  | CloseCalled closeListener => close env closeListener
  end.

(** One turn of the loop: the handler of the event runs, then the
    reactions of the command in flight.  What a handler throws goes to
    its own caller, not to the command. *)
Definition step {Frame} (env : Collaborators Frame) (cd : SendCommand * ZiGate) (ev : Event)
  : SendCommand * ZiGate :=
  let d1 := snd (handle env ev (snd cd)) in
  match resume env (fst cd) d1 with
  | (Ok c', d2) => (c', d2)
  | (Throw _, d2) => (fst cd, d2)
  end.

Definition run {Frame} (env : Collaborators Frame) (cd : SendCommand * ZiGate)
  (evs : list Event) : SendCommand * ZiGate :=
  fold_left (step env) evs cd.

(** A whole call: the synchronous part, then the events that follow. *)
Definition sendCommand_run {Frame} (env : Collaborators Frame)
  (cmdCode : Z) (cmdPayload : jsval) (timeout : option Z) (extra : option jsval)
  (disableResponse : bool) (d : ZiGate) (evs : list Event) : SendCommand * ZiGate :=
  match sendCommand env cmdCode cmdPayload timeout extra disableResponse d with
  | (Ok c, d1) => run env (c, d1) evs
  | (Throw e, d1) => (Settled (RejectedWith (ReasonError e)), d1)
  end.

(** ** Sample data for closed statements

    A small catalog and codec to run the driver on: command 9 declares one
    response rule-set, command 2 none, command 17 two rule-sets and no
    status confirmation.  A frame is its bytes: the message code, then for
    a status message the status and the packet type. *)

Module Sample.

Definition rule_code (c : Z) : ZiGateResponseMatcherRule :=
  {| receivedProperty := "code"; matcher := equal;
     expectedProperty := None; expectedExtraParameter := None;
     value := VNum c |}.

(** A rule that compares a property of the received object with a
    property of the request. *)
Definition rule_address : ZiGateResponseMatcherRule :=
  {| receivedProperty := "payload.sourceAddress"; matcher := equal;
     expectedProperty := Some "payload.targetShortAddress";
     expectedExtraParameter := None;
     value := VUndefined |}.

Definition command_of (c : Z) : ZiGateCommandType :=
  if c =? 9 then {| response := Some [[rule_code 32777]]; waitStatus := None |}
  else if c =? 17 then
    {| response := Some [[rule_code 32774]; [rule_code 32775]]; waitStatus := Some false |}
  else {| response := None; waitStatus := None |}.

Definition decode (frame : list Z) : result ZiGateObject :=
  match frame with
  | [c; st; pt] =>
      Ok {| code := c;
            payload := VObj [("status", Ok (VNum st)); ("packetType", Ok (VNum pt))];
            command := {| response := None; waitStatus := None |} |}
  | [c] => Ok {| code := c; payload := VObj [];
                 command := {| response := None; waitStatus := None |} |}
  | _ => Throw (ExternalError "malformed frame")
  end.

Definition env : Collaborators (list Z) :=
  {| createRequest := fun c p => Ok {| code := c; payload := p; command := command_of c |};
     toZiGateFrame := fun o => Ok [code o];
     toBuffer := fun f => Ok f;
     write := fun _ _ => Ok tt;
     asyncFlushAndClose := Throw (ExternalError "port is not open");
     newZiGateFrame := fun b => match b with
                                | [] => Throw (ExternalError "empty frame")
                                | _ => Ok b
                                end;
     readMsgCode := fun f => Ok (hd 0 f);
     fromZiGateFrame := decode;
     readIeeeAddr := fun _ => Ok (VStr "0x0000000000000000");
     listeners := fun _ => Ok tt;
     JSON_stringify := fun _ => "{}";
     E_SL_MSG_STATUS_SUCCESS := 0;
     MessageCode_Status := 32768;
     MessageCode_DataIndication := 32770;
     MessageCode_LeaveIndication := 32840;
     MessageCode_DeviceAnnounce := 77 |}.

(** An open serial driver and a driver after [close()]. *)
Definition opened : ZiGate :=
  {| initialized := true; serialPort := true; socketPort := false;
     portWrite := Some SerialPortHandle; waitress := Registry.empty; trace := [] |}.

Definition closed : ZiGate :=
  {| initialized := false; serialPort := true; socketPort := false;
     portWrite := None; waitress := Registry.empty; trace := [] |}.

Definition empty_object : ZiGateObject :=
  {| code := 0; payload := VObj [];
     command := {| response := None; waitStatus := None |} |}.

(** A request that names a target address, and the matcher of a waiter
    for it. *)
Definition addressed_request : ZiGateObject :=
  {| code := 69; payload := VObj [("targetShortAddress", Ok (VNum 4660))];
     command := {| response := Some [[rule_address]]; waitStatus := None |} |}.

Definition addressed_matcher : WaitressMatcher :=
  {| ziGateObject := addressed_request; rules := [rule_address];
     extraParameters := None |}.

(** The matcher of a waiter whose request names no target address. *)
Definition unaddressed_matcher : WaitressMatcher :=
  {| ziGateObject := empty_object; rules := [rule_address];
     extraParameters := None |}.

(** A comparator that throws. *)
Definition throwing_rule : ZiGateResponseMatcherRule :=
  {| receivedProperty := "code";
     matcher := fun _ _ => Throw (ExternalError "comparator failed");
     expectedProperty := None; expectedExtraParameter := None;
     value := VNum 0 |}.

Definition throwing_matcher : WaitressMatcher :=
  {| ziGateObject := empty_object; rules := [rule_code 0; throwing_rule];
     extraParameters := None |}.

(** The request of command 9, the driver after [sendCommand] of it on
    the open driver, and after a status of 1 (a failure) has come in. *)
Definition request_9 : ZiGateObject :=
  {| code := 9; payload := VObj []; command := command_of 9 |}.

Definition sent_9 : ZiGate :=
  snd (sendCommand env 9 (VObj []) None None false opened).

Definition status_failed_9 : ZiGateObject :=
  {| code := 32768;
     payload := VObj [("status", Ok (VNum 1)); ("packetType", Ok (VNum 9))];
     command := {| response := None; waitStatus := None |} |}.

Definition failed_9 : ZiGate :=
  snd (onSerialData env [32768; 1; 9] sent_9).

(** Command 2 declares no response: the driver after [sendCommand] of
    it, and after its status of 0 (success) has come in. *)
Definition sent_2 : ZiGate :=
  snd (sendCommand env 2 (VObj []) None None false opened).

Definition status_ok_2 : ZiGateObject :=
  {| code := 32768;
     payload := VObj [("status", Ok (VNum 0)); ("packetType", Ok (VNum 2))];
     command := {| response := None; waitStatus := None |} |}.

Definition confirmed_2 : ZiGate :=
  snd (onSerialData env [32768; 0; 2] sent_2).

End Sample.

(** The answer of a comparison with a [catch] that answers [false]. *)
Definition bool_of_result (r : result bool) : bool :=
  match r with
  | Ok b => b
  | Throw _ => false
  end.

(** The emissions of the close event in a stretch of the trace. *)
Definition is_close_emit (e : Effect) : bool :=
  match e with
  | EEmit EvClose => true
  | _ => false
  end.

Definition count_close (t : list Effect) : nat :=
  List.length (filter is_close_emit t).

(** What the codec makes of a chunk (zigate.ts:268-277). *)
Definition decode {Frame} (env : Collaborators Frame) (buffer : list Z)
  : result (Z * ZiGateObject) :=
  (frame <- newZiGateFrame env buffer ;;
   msgCode <- readMsgCode env frame ;;
   o <- fromZiGateFrame env frame ;;
   Ok (msgCode, o))%js.

(** Whether the timer of the waiter [id] runs. *)
Definition timer_running (id : nat) (w : Waitress) : bool :=
  match Registry.lookup id (waiters w) with
  | Some x => timer x
  | None => false
  end.

(** The registration of one waiter with its timer started at once, as
    lines 103-105 and 116 do it. *)
Definition register_started (m : WaitressMatcher) (timeout : Z) : M nat :=
  (id <- waitress_waitFor m timeout ;; waiter_start id)%drv.

(** The part of the instance a stretch of registrations leaves alone, and
    what it does to the registry: [ids] are the fresh IDs, in order, and
    each of them has its timer running. *)
Record registers (d d1 : ZiGate) (ids : list nat) : Prop := {
  reg_initialized : initialized d1 = initialized d;
  reg_portWrite : portWrite d1 = portWrite d;
  reg_currentID : currentID (waitress d1) = (currentID (waitress d) + List.length ids)%nat;
  reg_ids : ids = seq (currentID (waitress d)) (List.length ids);
  reg_promises : promises (waitress d1) = promises (waitress d);
  reg_kept : forall id, timer_running id (waitress d) = true ->
                        timer_running id (waitress d1) = true;
  reg_started : forall id, In id ids -> timer_running id (waitress d1) = true;
  reg_no_write : exists added,
      trace d1 = (trace d ++ added)%list /\
      forall p b, ~ In (EWrite p b) added
}.

(** The registry after [waitersId.map((id) => this.waitress.remove(id))]. *)
Definition remove_ids (ids : list nat) (w : Waitress) : Waitress :=
  fold_left (fun acc id => Registry.remove id acc) ids w.

(** ** Hexadecimal labels (zigate.ts:39-41) *)

(** [number.toString(16)] on an integer: lower-case digits, a leading
    minus sign on a negative number. *)
Definition toString16 (number : Z) : string :=
  HexadecimalString.NilZero.string_of_int (Z.to_hex_int number).

Fixpoint zeros (k : nat) : string :=
  match k with
  | O => EmptyString
  | S k' => String "0"%char (zeros k')
  end.

(** [s.padStart(targetLength, '0')] *)
Definition padStart_zero (s : string) (targetLength : nat) : string :=
  zeros (targetLength - String.length s) ++ s.

(** [zeroPad(number, size)]; [size] is [None] when it is left out, and
    [size || 4] takes 4 for a size of 0 as well. *)
Definition zeroPad (number : Z) (size : option Z) : string :=
  padStart_zero (toString16 number)
    (Z.to_nat match size with
              | Some s => if s =? 0 then 4 else s
              | None => 4
              end).

(** [parseInt(s, 16)] on a string of lower-case hexadecimal digits. *)
Definition parseHex (s : string) : option Z :=
  option_map Z.of_hex_int (HexadecimalString.NilZero.int_of_string s).

(** [segments.join('.')] *)
Fixpoint join (sep : ascii) (segments : list string) : string :=
  match segments with
  | [] => EmptyString
  | [s] => s
  | s :: rest => s ++ String sep (join sep rest)
  end.

(** [f] on [fuel] consecutive integers from [n] on. *)
Fixpoint all_from (fuel : nat) (n : Z) (f : Z -> bool) : bool :=
  match fuel with
  | O => true
  | S k => f n && all_from k (n + 1) f
  end.

(** Whether every property of the value, at any depth, reads without
    throwing. *)
Fixpoint data_only (v : jsval) : bool :=
  match v with
  | VObj props =>
      (fix all_data (ps : list (string * result jsval)) : bool :=
         match ps with
         | [] => true
         | (_, Ok v') :: rest => data_only v' && all_data rest
         | (_, Throw _) :: _ => false
         end) props
  | _ => true
  end.

(** The matcher of the status waiter of a request (zigate.ts:111-116). *)
Definition status_matcher {Frame} (env : Collaborators Frame) (o : ZiGateObject)
  : WaitressMatcher :=
  {| ziGateObject := o; rules := ruleStatus env o; extraParameters := None |}.

(** ** More of the sample run of command 9

    Its successful status, and the driver after that status has come in,
    after the timer of the status waiter has run out, and after the timer
    of the response waiter has run out following the status. *)

Module Scenario.

Definition status_ok_9 : ZiGateObject :=
  {| code := 32768;
     payload := VObj [("status", Ok (VNum 0)); ("packetType", Ok (VNum 9))];
     command := {| response := None; waitStatus := None |} |}.

Definition confirmed_9 : ZiGate :=
  snd (onSerialData Sample.env [32768; 0; 9] Sample.sent_9).

Definition status_timed_out_9 : ZiGate :=
  snd (handle Sample.env (TimerExpired 1) Sample.sent_9).

Definition response_timed_out_9 : ZiGate :=
  snd (handle Sample.env (TimerExpired 0) confirmed_9).

End Scenario.

(** No registered waiter carries an ID the registry has yet to hand
    out. *)
Definition fresh_ids (w : Waitress) : Prop :=
  forall x, In x (waiters w) -> (ID x < currentID w)%nat.

(** The waiter [sendCommand] registers under [id] for the matcher [m]. *)
Definition started_waiter (id : nat) (m : WaitressMatcher) (timeout : option Z) : Waiter :=
  {| ID := id; waiter_matcher := m;
     waiter_timeout := timeout_or_default timeout; timer := true |}.

(** What a settled promise of a waiter makes of a race it is part of. *)
Definition settlement_of (s : PromiseState) : option Settlement :=
  match s with
  | Pending => None
  | Fulfilled o => Some (Resolved o)
  | Rejected e => Some (RejectedWith (ReasonError e))
  end.

(** The sample collaborators with a catalog that knows command 9 only. *)
Definition strict_env : Collaborators (list Z) :=
  {| createRequest := fun c p =>
       if c =? 9
       then Ok {| code := c; payload := p; command := Sample.command_of c |}
       else Throw (ExternalError "unknown command");
     toZiGateFrame := toZiGateFrame Sample.env;
     toBuffer := toBuffer Sample.env;
     write := write Sample.env;
     asyncFlushAndClose := asyncFlushAndClose Sample.env;
     newZiGateFrame := newZiGateFrame Sample.env;
     readMsgCode := readMsgCode Sample.env;
     fromZiGateFrame := fromZiGateFrame Sample.env;
     readIeeeAddr := readIeeeAddr Sample.env;
     listeners := listeners Sample.env;
     JSON_stringify := JSON_stringify Sample.env;
     E_SL_MSG_STATUS_SUCCESS := E_SL_MSG_STATUS_SUCCESS Sample.env;
     MessageCode_Status := MessageCode_Status Sample.env;
     MessageCode_DataIndication := MessageCode_DataIndication Sample.env;
     MessageCode_LeaveIndication := MessageCode_LeaveIndication Sample.env;
     MessageCode_DeviceAnnounce := MessageCode_DeviceAnnounce Sample.env |}.

(** The emissions in a stretch of the trace, of any event. *)
Definition is_emit (e : Effect) : bool :=
  match e with
  | EEmit _ => true
  | _ => false
  end.

Definition count_emit (t : list Effect) : nat :=
  List.length (filter is_emit t).

(** The releases of the transport in a stretch of the trace. *)
Definition is_release (e : Effect) : bool :=
  match e with
  | EFlushAndClose | EDestroy => true
  | _ => false
  end.

(** The sample collaborators with listeners that throw. *)
Definition throwing_listeners_env : Collaborators (list Z) :=
  {| createRequest := createRequest Sample.env;
     toZiGateFrame := toZiGateFrame Sample.env;
     toBuffer := toBuffer Sample.env;
     write := write Sample.env;
     asyncFlushAndClose := asyncFlushAndClose Sample.env;
     newZiGateFrame := newZiGateFrame Sample.env;
     readMsgCode := readMsgCode Sample.env;
     fromZiGateFrame := fromZiGateFrame Sample.env;
     readIeeeAddr := readIeeeAddr Sample.env;
     listeners := fun _ => Throw (ExternalError "listener failed");
     JSON_stringify := JSON_stringify Sample.env;
     E_SL_MSG_STATUS_SUCCESS := E_SL_MSG_STATUS_SUCCESS Sample.env;
     MessageCode_Status := MessageCode_Status Sample.env;
     MessageCode_DataIndication := MessageCode_DataIndication Sample.env;
     MessageCode_LeaveIndication := MessageCode_LeaveIndication Sample.env;
     MessageCode_DeviceAnnounce := MessageCode_DeviceAnnounce Sample.env |}.

(** A data indication of profile 0 and cluster 0x0013 with its inner
    payload. *)
Definition announce_indication (bytes : list Z) : ZiGateObject :=
  {| code := 32770;
     payload := VObj [("profileID", Ok (VNum 0)); ("clusterID", Ok (VNum 19));
                      ("payload", Ok (VBuf bytes))];
     command := {| response := None; waitStatus := None |} |}.

(** ** Construction and opening (zigate.ts:62-72, 149-151, 184-252) *)

(** The part of the serial port options the constructor reads. *)
Record SerialPortOptions : Type := {
  options_baudRate : jsval
}.

(** The listeners the driver binds on its transport and its parser. *)
Inductive Listener : Type :=
| OnData
| OnceClose
| OnceError
| OnConnect
| OnReady
| OnError.

(** What the driver does to the transport while opening, in program
    order. *)
Inductive TransportOp : Type :=
| TNewSerialPort (path : string) (baudRate : Z)
| TNewSocket
| TSetNoDelay
| TSetKeepAlive (delay : Z)
| TPipeParser
| TAsyncOpen
| TSerialClose
| TConnect (port : Z) (host : string).

(** The promise [openSocketPort] returns; its rejection carries no
    reason. *)
Inductive OpenPromise : Type :=
| OpenPending
| OpenResolved
| OpenRejected.

(** The instance with the fields [ZiGate] does not hold: the path and
    the baud rate, the listeners bound so far, the operations on the
    transport so far, and the promise of [openSocketPort] if there is
    one. *)
Record Session : Type := {
  config_path : string;
  baudRate : Z;
  driver : ZiGate;
  bound : list Listener;
  transport_ops : list TransportOp;
  opening : option OpenPromise
}.

(** The collaborators of opening: the path utilities and what the serial
    port answers to [asyncOpen()] and to [isOpen] after a failure. *)
Record Opener : Type := {
  isTcpPath : string -> bool;
  parseTcpPath : string -> result (string * Z);
  asyncOpen : result unit;
  isOpen : bool
}.

(** The constructor (zigate.ts:62-72). *)
Definition new_ZiGate (p : string) (serialPortOptions : SerialPortOptions) : Session :=
  {| config_path := p;
     baudRate := match options_baudRate serialPortOptions with
                 | VNum n => n
                 | _ => 115200
                 end;
     driver := {| initialized := false; serialPort := false; socketPort := false;
                  portWrite := None; waitress := Registry.empty; trace := [] |};
     bound := [];
     transport_ops := [];
     opening := None |}.

Definition with_port (d : ZiGate) (serial socket : bool) (p : option Port) : ZiGate :=
  {| initialized := initialized d; serialPort := serial; socketPort := socket;
     portWrite := p; waitress := waitress d; trace := trace d |}.

Definition with_initialized (d : ZiGate) (b : bool) : ZiGate :=
  {| initialized := b; serialPort := serialPort d; socketPort := socketPort d;
     portWrite := portWrite d; waitress := waitress d; trace := trace d |}.

(** [openSerialPort] (zigate.ts:184-216), with the answer of
    [asyncOpen()] taken at once. *)
Definition openSerialPort (op : Opener) (s : Session) : result unit * Session :=
  let d1 := with_port (driver s) true (socketPort (driver s)) (Some SerialPortHandle) in
  let ops1 := (transport_ops s
               ++ [TNewSerialPort (config_path s) (baudRate s); TPipeParser; TAsyncOpen])%list in
  let bound1 := (bound s ++ [OnData])%list in
  match asyncOpen op with
  | Ok _ =>
      (Ok tt,
       {| config_path := config_path s; baudRate := baudRate s;
          driver := with_initialized d1 true;
          bound := (bound1 ++ [OnceClose; OnceError])%list;
          transport_ops := ops1;
          opening := opening s |})
  | Throw error =>
      (Throw error,
       {| config_path := config_path s; baudRate := baudRate s;
          driver := with_initialized d1 false;
          bound := bound1;
          transport_ops := (ops1 ++ if isOpen op then [TSerialClose] else [])%list;
          opening := opening s |})
  end.

(** [openSocketPort] (zigate.ts:218-252) up to [connect]; the promise it
    returns is settled by the listeners below. *)
Definition openSocketPort (op : Opener) (s : Session) : result unit * Session :=
  match parseTcpPath op (config_path s) with
  | Throw error => (Throw error, s)
  | Ok (host, port) =>
      (Ok tt,
       {| config_path := config_path s; baudRate := baudRate s;
          driver := with_port (driver s) (serialPort (driver s)) true (Some SocketPortHandle);
          bound := (bound s ++ [OnData; OnConnect; OnReady; OnceClose; OnError])%list;
          transport_ops := (transport_ops s
                            ++ [TNewSocket; TSetNoDelay; TSetKeepAlive 15000; TPipeParser;
                                TConnect port host])%list;
          opening := Some OpenPending |})
  end.

(** [open()] (zigate.ts:149-151).  For a socket the answer is that of the
    part up to [connect]; the promise itself is [opening]. *)
Definition open (op : Opener) (s : Session) : result unit * Session :=
  if isTcpPath op (config_path s) then openSocketPort op s else openSerialPort op s.

(** A promise settles once: [resolve] and [reject] on a settled promise
    do nothing. *)
Definition settle_opening (to : OpenPromise) (o : option OpenPromise) : option OpenPromise :=
  match o with
  | Some OpenPending => Some to
  | _ => o
  end.

Definition with_driver (s : Session) (d : ZiGate) (o : option OpenPromise) : Session :=
  {| config_path := config_path s; baudRate := baudRate s; driver := d;
     bound := bound s; transport_ops := transport_ops s; opening := o |}.

(** The ['ready'] listener of the socket (zigate.ts:235-239). *)
Definition onSocketReady (s : Session) : Session :=
  with_driver s (with_initialized (driver s) true)
    (settle_opening OpenResolved (opening s)).

(** The ['error'] listener of the socket (zigate.ts:243-248) with the
    [reject()] of the promise. *)
Definition onSocketErrorEvent (error : JsError) (s : Session) : Session :=
  with_driver s (snd (onSocketError error (driver s)))
    (settle_opening OpenRejected (opening s)).

(** What the socket can tell the driver while and after it connects. *)
Inductive SocketEvent : Type :=
| SocketReady
| SocketFailed (error : JsError).

Definition socket_step (s : Session) (ev : SocketEvent) : Session :=
  match ev with
  | SocketReady => onSocketReady s
  | SocketFailed error => onSocketErrorEvent error s
  end.

(** ** Sample data for opening and dispatch *)

(** An open driver with one started waiter for a leave indication. *)
Definition leave_waiter_driver : ZiGate :=
  snd (register_started
         {| ziGateObject := Sample.empty_object; rules := [Sample.rule_code 32840];
            extraParameters := None |}
         10000 Sample.opened).

(** A serial port that cannot be opened, one that can, and a socket
    address. *)
Definition failing_opener : Opener :=
  {| isTcpPath := fun _ => false;
     parseTcpPath := fun _ => Throw (ExternalError "not a tcp path");
     asyncOpen := Throw (ExternalError "cannot open port");
     isOpen := false |}.

Definition working_opener : Opener :=
  {| isTcpPath := fun _ => false;
     parseTcpPath := fun _ => Throw (ExternalError "not a tcp path");
     asyncOpen := Ok tt;
     isOpen := true |}.

Definition socket_opener : Opener :=
  {| isTcpPath := fun _ => true;
     parseTcpPath := fun _ => Ok ("192.168.1.2", 9999);
     asyncOpen := Throw (ExternalError "not a serial path");
     isOpen := false |}.

Definition sample_session : Session :=
  new_ZiGate "/dev/ttyUSB0" {| options_baudRate := VUndefined |}.

(** The driver after [sendCommand] of command 17, which declares two
    response rule-sets and no status. *)
Definition two_responses_driver : ZiGate :=
  snd (sendCommand Sample.env 17 (VObj []) None None false Sample.opened).

(** The sample collaborators with a serial port whose release succeeds. *)
Definition releasing_env : Collaborators (list Z) :=
  {| createRequest := createRequest Sample.env;
     toZiGateFrame := toZiGateFrame Sample.env;
     toBuffer := toBuffer Sample.env;
     write := write Sample.env;
     asyncFlushAndClose := Ok tt;
     newZiGateFrame := newZiGateFrame Sample.env;
     readMsgCode := readMsgCode Sample.env;
     fromZiGateFrame := fromZiGateFrame Sample.env;
     readIeeeAddr := readIeeeAddr Sample.env;
     listeners := listeners Sample.env;
     JSON_stringify := JSON_stringify Sample.env;
     E_SL_MSG_STATUS_SUCCESS := E_SL_MSG_STATUS_SUCCESS Sample.env;
     MessageCode_Status := MessageCode_Status Sample.env;
     MessageCode_DataIndication := MessageCode_DataIndication Sample.env;
     MessageCode_LeaveIndication := MessageCode_LeaveIndication Sample.env;
     MessageCode_DeviceAnnounce := MessageCode_DeviceAnnounce Sample.env |}.

Definition is_ok {A} (r : result A) : bool :=
  match r with
  | Ok _ => true
  | Throw _ => false
  end.

Definition is_once_close (l : Listener) : bool :=
  match l with
  | OnceClose => true
  | _ => false
  end.

(** Whether the release in [close()] gets the serial port to raise its
    ['close'] event with the listener of line 203 still bound. *)
Definition serial_close_delivered {Frame} (env : Collaborators Frame)
  (closeListener : bool) (d : ZiGate) : bool :=
  closeListener && initialized d && serialPort d && is_ok (asyncFlushAndClose env).

(** Whether [close()] destroys a socket with the listener of line 241
    still bound. *)
Definition socket_close_delivered (closeListener : bool) (d : ZiGate) : bool :=
  closeListener && initialized d && negb (serialPort d) && socketPort d.

Definition close_event_delivered {Frame} (env : Collaborators Frame)
  (closeListener : bool) (d : ZiGate) : bool :=
  serial_close_delivered env closeListener d || socket_close_delivered closeListener d.

(** [close()] followed by the ['close'] event that a destroyed socket
    raises once [close()] has run to its end: [onPortClose] runs then, if
    the listener of line 241 is still bound. *)
Definition close_then_event {Frame} (env : Collaborators Frame) (closeListener : bool)
  : M unit :=
  fun d =>
    (fst (close env closeListener d),
     if socket_close_delivered closeListener d
     then snd (onPortClose env (snd (close env closeListener d)))
     else snd (close env closeListener d)).

(** [close()] on the whole instance: the close listener is the one
    [open()] bound, and a [once] listener that has run is bound no
    more. *)
Definition close_session {Frame} (env : Collaborators Frame) (s : Session)
  : result unit * Session :=
  let closeListener := existsb is_once_close (bound s) in
  (fst (close_then_event env closeListener (driver s)),
   {| config_path := config_path s; baudRate := baudRate s;
      driver := snd (close_then_event env closeListener (driver s));
      bound := if close_event_delivered env closeListener (driver s)
               then filter (fun l => negb (is_once_close l)) (bound s)
               else bound s;
      transport_ops := transport_ops s;
      opening := opening s |}).

(** The effects of registering and starting the waiters [ids], in
    order. *)
Definition registration_effects (ids : list nat) : list Effect :=
  flat_map (fun id => [EWaitFor id; EStart id]) ids.


(** * Properties *)

(** ** The rule matcher *)

Lemma validator_never_throws (received : ZiGateObject) (m : WaitressMatcher)
  (rule : ZiGateResponseMatcherRule) :
  validator received m rule = Ok (bool_of_result (validator_body received m rule)).
Proof.
  unfold validator, rcatch.
  destruct (validator_body received m rule); reflexivity.
Qed.

Lemma every_total {A} (f : A -> result bool) (g : A -> bool) (l : list A) :
  (forall x, f x = Ok (g x)) -> every f l = Ok (forallb g l).
Proof.
  intros Hf. induction l as [|x rest IH]; simpl.
  - reflexivity.
  - rewrite Hf. simpl. destruct (g x); simpl; [exact IH | reflexivity].
Qed.

Lemma waitressValidator_forallb (received : ZiGateObject) (m : WaitressMatcher) :
  waitressValidator received m =
  Ok (forallb (fun rule => bool_of_result (validator_body received m rule)) (rules m)).
Proof.
  unfold waitressValidator. apply every_total.
  intros rule. apply validator_never_throws.
Qed.

Lemma equal_one_undefined (e r : jsval) :
  (e = VUndefined /\ r <> VUndefined) \/ (e <> VUndefined /\ r = VUndefined) ->
  equal e r = Ok false.
Proof.
  intros [[He Hr] | [He Hr]]; subst; unfold equal.
  - destruct r; congruence.
  - destruct e; congruence.
Qed.

(** C4, as the claim states it, fails: a rule whose expected and received
    values both resolve to [undefined] matches under the equality
    comparator. *)
Lemma validator_both_undefined_matches :
  expected_value Sample.unaddressed_matcher Sample.rule_address = Ok VUndefined /\
  received_value Sample.empty_object Sample.rule_address = Ok VUndefined /\
  validator Sample.empty_object Sample.unaddressed_matcher Sample.rule_address = Ok true.
Proof. repeat split; reflexivity. Qed.

(** C4, amended: the validator of a rule never throws, and its answer is
    the comparator's answer on the resolved expected and received values
    ([false] when resolving or comparing throws).  Under the equality
    comparator a rule with exactly one of the two values undefined does
    not match, and a rule with both undefined matches. *)
Theorem validator_answers_by_comparator (received : ZiGateObject) (m : WaitressMatcher)
  (rule : ZiGateResponseMatcherRule) :
  validator received m rule = Ok (bool_of_result (validator_body received m rule)) /\
  (forall e r,
      expected_value m rule = Ok e ->
      received_value received rule = Ok r ->
      validator received m rule = Ok (bool_of_result (matcher rule e r)) /\
      (matcher rule = equal ->
       ((e = VUndefined /\ r <> VUndefined) \/ (e <> VUndefined /\ r = VUndefined) ->
        validator received m rule = Ok false) /\
       (e = VUndefined -> r = VUndefined -> validator received m rule = Ok true))).
Proof.
  split; [apply validator_never_throws|].
  intros e r He Hr.
  assert (Hv : validator received m rule = Ok (bool_of_result (matcher rule e r))).
  { rewrite validator_never_throws. unfold validator_body.
    rewrite He, Hr. reflexivity. }
  split; [exact Hv|].
  intros Heq. rewrite Hv, Heq. split.
  - intros H. rewrite (equal_one_undefined e r H). reflexivity.
  - intros -> ->. reflexivity.
Qed.

Lemma validator_answers_by_comparator_witness :
  expected_value Sample.addressed_matcher Sample.rule_address = Ok (VNum 4660) /\
  received_value Sample.empty_object Sample.rule_address = Ok VUndefined /\
  validator Sample.empty_object Sample.addressed_matcher Sample.rule_address = Ok false.
Proof.
  split; [reflexivity|]. split; [reflexivity|].
  destruct (validator_answers_by_comparator
              Sample.empty_object Sample.addressed_matcher Sample.rule_address)
    as [_ H].
  destruct (H (VNum 4660) VUndefined eq_refl eq_refl) as [_ Hequal].
  apply (Hequal eq_refl).
  right. split; [discriminate | reflexivity].
Defined.

(** C5: the matcher is satisfied exactly when every rule of its rule set
    passes, the validator itself never throws, and a rule whose resolution
    or comparison throws counts as failed. *)
Theorem waitressValidator_conjunction (received : ZiGateObject) (m : WaitressMatcher) :
  exists b,
    waitressValidator received m = Ok b /\
    (b = true <->
     Forall (fun rule => validator_body received m rule = Ok true) (rules m)) /\
    (forall rule e,
        In rule (rules m) ->
        validator_body received m rule = Throw e ->
        validator received m rule = Ok false /\ b = false).
Proof.
  exists (forallb (fun rule => bool_of_result (validator_body received m rule)) (rules m)).
  split; [apply waitressValidator_forallb|]. split.
  - rewrite forallb_forall, Forall_forall. split; intros H rule Hin.
    + specialize (H rule Hin).
      destruct (validator_body received m rule) as [[|]|]; simpl in H; congruence.
    + rewrite (H rule Hin). reflexivity.
  - intros rule e Hin Hthrow. split.
    + rewrite validator_never_throws, Hthrow. reflexivity.
    + apply not_true_is_false. rewrite forallb_forall. intros H.
      specialize (H rule Hin). rewrite Hthrow in H. discriminate.
Qed.

Lemma waitressValidator_conjunction_witness :
  validator_body Sample.empty_object Sample.throwing_matcher Sample.throwing_rule
  = Throw (ExternalError "comparator failed") /\
  waitressValidator Sample.empty_object Sample.throwing_matcher = Ok false.
Proof.
  split; [reflexivity|].
  destruct (waitressValidator_conjunction Sample.empty_object Sample.throwing_matcher)
    as [b [Hb [_ Hthrow]]].
  rewrite Hb. f_equal.
  apply (Hthrow Sample.throwing_rule (ExternalError "comparator failed")).
  - right. left. reflexivity.
  - reflexivity.
Defined.

(** ** Lifecycle *)

Ltac unfold_m :=
  unfold emit, set_initialized, set_portWrite, set_waitress, effect,
         mcatch, mbind, mthrow, mret, lift, this in *.

(** C7, as the claim states it, fails: an error event of the serial port
    leaves an open driver open and emits nothing. *)
Lemma onPortError_keeps_driver_open :
  initialized (snd (onPortError (ExternalError "device unplugged") Sample.opened)) = true /\
  count_close (trace (snd (onPortError (ExternalError "device unplugged") Sample.opened))) = 0%nat.
Proof. split; reflexivity. Qed.

(** C7, amended: a close event of the transport sets [initialized] to
    false in every state and emits the close event; an error event of the
    serial port is only logged, it changes no field and emits nothing; an
    error event of the socket is logged and sets [initialized] to false
    without emitting. *)
Theorem port_events_transition {Frame} (env : Collaborators Frame) (d : ZiGate)
  (error : JsError) :
  (initialized (snd (onPortClose env d)) = false /\
   trace (snd (onPortClose env d)) = (trace d ++ [EEmit EvClose])%list) /\
  (initialized (snd (onPortError error d)) = initialized d /\
   portWrite (snd (onPortError error d)) = portWrite d /\
   waitress (snd (onPortError error d)) = waitress d /\
   trace (snd (onPortError error d)) = (trace d ++ [ELogError error])%list) /\
  (initialized (snd (onSocketError error d)) = false /\
   trace (snd (onSocketError error d)) = (trace d ++ [ELogError error])%list).
Proof.
  unfold onPortClose, onPortError, onSocketError. unfold_m. simpl.
  repeat split; destruct (listeners env EvClose); reflexivity.
Qed.




(** ** Inbound frames *)

Lemma settle_fulfilled_rejected (id id' : nat) (o : ZiGateObject) (w : Waitress)
  (e : JsError) :
  Registry.promise id' (Registry.settle id (Fulfilled o) w) = Rejected e ->
  Registry.promise id' w = Rejected e.
Proof.
  unfold Registry.settle, Registry.promise. simpl.
  destruct (Registry.promise_in id (promises w)) eqn:Hp; simpl; try tauto.
  destruct (Nat.eqb id id') eqn:Heq; [discriminate | tauto].
Qed.

Lemma resolve_rejects_nothing (validate : ZiGateObject -> WaitressMatcher -> result bool)
  (o : ZiGateObject) (w w' : Waitress) (id : nat) (e : JsError) :
  Registry.resolve validate o w = Ok w' ->
  Registry.promise id w' = Rejected e ->
  Registry.promise id w = Rejected e.
Proof.
  unfold Registry.resolve, rbind.
  destruct (Registry.first_match validate o (waiters w)) as [[hit|]|]; intros H;
    inversion H; subst; clear H.
  - apply settle_fulfilled_rejected.
  - tauto.
Qed.

(** [dispatch] touches the trace only: it appends at most the emission of
    one event that is not the close event. *)
Lemma dispatch_appends {Frame} (env : Collaborators Frame) (msgCode : Z) (o : ZiGateObject)
  (d : ZiGate) :
  exists added,
    snd (dispatch env msgCode o d) =
    {| initialized := initialized d; serialPort := serialPort d;
       socketPort := socketPort d; portWrite := portWrite d;
       waitress := waitress d; trace := (trace d ++ added)%list |} /\
    count_close added = 0%nat.
Proof.
  assert (Hnil : d = {| initialized := initialized d; serialPort := serialPort d;
                        socketPort := socketPort d; portWrite := portWrite d;
                        waitress := waitress d; trace := (trace d ++ [])%list |}).
  { rewrite app_nil_r. destruct d; reflexivity. }
  unfold dispatch. unfold_m.
  repeat match goal with
         | |- context [if ?c then _ else _] => destruct c
         | |- context [match ?r with Ok _ => _ | Throw _ => _ end] => destruct r; simpl
         | |- context [let (_, _) := ?r in _] => destruct r; simpl
         end;
    simpl;
    first [ exists []; split; [exact Hnil | reflexivity]
          | eexists [_]; split; [reflexivity | reflexivity] ].
Qed.

Lemma count_close_app (t1 t2 : list Effect) :
  count_close (t1 ++ t2) = (count_close t1 + count_close t2)%nat.
Proof.
  unfold count_close. rewrite filter_app, length_app. reflexivity.
Qed.

(** ** The registry under [sendCommand] *)

Lemma lookup_app_some (id : nat) (ws ws' : list Waiter) (x : Waiter) :
  Registry.lookup id ws = Some x -> Registry.lookup id (ws ++ ws') = Some x.
Proof.
  induction ws as [|y rest IH]; simpl; [discriminate|].
  destruct (Nat.eqb (ID y) id); auto.
Qed.

Lemma lookup_app_last (id : nat) (ws : list Waiter) (x : Waiter) :
  ID x = id -> exists y, Registry.lookup id (ws ++ [x]) = Some y.
Proof.
  intros Hid. induction ws as [|z rest IH]; simpl.
  - rewrite Hid, Nat.eqb_refl. eauto.
  - destruct (Nat.eqb (ID z) id); eauto.
Qed.

Lemma lookup_start (id id' : nat) (ws : list Waiter) :
  Registry.lookup id'
    (map (fun x => if Nat.eqb (ID x) id
                   then {| ID := ID x; waiter_matcher := waiter_matcher x;
                           waiter_timeout := waiter_timeout x; timer := true |}
                   else x) ws)
  = match Registry.lookup id' ws with
    | Some x => Some (if Nat.eqb (ID x) id
                      then {| ID := ID x; waiter_matcher := waiter_matcher x;
                              waiter_timeout := waiter_timeout x; timer := true |}
                      else x)
    | None => None
    end.
Proof.
  induction ws as [|y rest IH]; simpl; [reflexivity|].
  destruct (Nat.eqb (ID y) id) eqn:Hy; simpl;
    destruct (Nat.eqb (ID y) id') eqn:Hy'; simpl; auto; rewrite Hy; reflexivity.
Qed.

Lemma lookup_ID (id : nat) (ws : list Waiter) (x : Waiter) :
  Registry.lookup id ws = Some x -> ID x = id.
Proof.
  induction ws as [|y rest IH]; simpl; [discriminate|].
  destruct (Nat.eqb (ID y) id) eqn:Hy; auto.
  intros H. inversion H; subst. apply Nat.eqb_eq. exact Hy.
Qed.

Lemma timer_running_waitFor (id : nat) (m : WaitressMatcher) (timeout : Z) (w : Waitress) :
  timer_running id w = true ->
  timer_running id (snd (Registry.waitFor m timeout w)) = true.
Proof.
  unfold timer_running, Registry.waitFor. simpl.
  destruct (Registry.lookup id (waiters w)) as [x|] eqn:Hl; [|discriminate].
  rewrite (lookup_app_some _ _ _ _ Hl). tauto.
Qed.

Lemma timer_running_start (id id' : nat) (w : Waitress) :
  timer_running id w = true -> timer_running id (Registry.start id' w) = true.
Proof.
  unfold timer_running, Registry.start. simpl. rewrite lookup_start.
  destruct (Registry.lookup id (waiters w)) as [x|]; [|discriminate].
  destruct (Nat.eqb (ID x) id'); auto.
Qed.

Lemma timer_running_started (m : WaitressMatcher) (timeout : Z) (w : Waitress) :
  timer_running (currentID w)
    (Registry.start (currentID w) (snd (Registry.waitFor m timeout w))) = true.
Proof.
  unfold timer_running, Registry.start, Registry.waitFor. simpl. rewrite lookup_start.
  destruct (lookup_app_last (currentID w) (waiters w)
              {| ID := currentID w; waiter_matcher := m;
                 waiter_timeout := timeout; timer := false |} eq_refl) as [y Hy].
  rewrite Hy. rewrite (lookup_ID _ _ _ Hy), Nat.eqb_refl. reflexivity.
Qed.

(** What the registration of one started waiter does to the instance. *)
Lemma register_started_run (m : WaitressMatcher) (timeout : Z) (d : ZiGate) :
  register_started m timeout d =
  (Ok (currentID (waitress d)),
   {| initialized := initialized d; serialPort := serialPort d;
      socketPort := socketPort d; portWrite := portWrite d;
      waitress := Registry.start (currentID (waitress d))
                    (snd (Registry.waitFor m timeout (waitress d)));
      trace := (trace d ++ [EWaitFor (currentID (waitress d));
                            EStart (currentID (waitress d))])%list |}).
Proof.
  unfold register_started, waitress_waitFor, waiter_start. unfold_m. simpl.
  rewrite <- app_assoc. reflexivity.
Qed.

Lemma registers_nil (d : ZiGate) : registers d d [].
Proof.
  constructor; simpl; auto; try tauto.
  exists []. rewrite app_nil_r. split; [reflexivity | intros p b []].
Qed.

Lemma registers_one (m : WaitressMatcher) (timeout : Z) (d : ZiGate) :
  registers d (snd (register_started m timeout d)) [currentID (waitress d)].
Proof.
  rewrite register_started_run. constructor; simpl; auto.
  - lia.
  - intros id H. apply timer_running_start, timer_running_waitFor, H.
  - intros id [<-|[]]. apply timer_running_started.
  - eexists. split; [reflexivity|].
    intros p b [H|[H|[]]]; discriminate.
Qed.

Lemma registers_trans (d d1 d2 : ZiGate) (ids ids' : list nat) :
  registers d d1 ids -> registers d1 d2 ids' -> registers d d2 (ids ++ ids').
Proof.
  intros [Hi Hp Hc Hids Hpr Hk Hs [a [Ha Hw]]] [Hi' Hp' Hc' Hids' Hpr' Hk' Hs' [a' [Ha' Hw']]].
  constructor.
  - congruence.
  - congruence.
  - rewrite Hc', Hc, length_app. lia.
  - rewrite length_app, seq_app, <- Hids, <- Hc, <- Hids'. reflexivity.
  - congruence.
  - auto.
  - intros id Hin. apply in_app_or in Hin. destruct Hin; auto.
  - exists (a ++ a')%list. split.
    + rewrite Ha', Ha, app_assoc. reflexivity.
    + intros p b Hin. apply in_app_or in Hin. destruct Hin as [H|H].
      * exact (Hw p b H).
      * exact (Hw' p b H).
Qed.

Lemma forEach_response_step (o : ZiGateObject) (extra : option jsval) (timeout : option Z)
  (r : ZiGateResponseMatcher) (rest : list ZiGateResponseMatcher)
  (acc : list nat * list nat) (d : ZiGate) :
  forEach_response o extra timeout (r :: rest) acc d =
  forEach_response o extra timeout rest
    ((fst acc ++ [currentID (waitress d)])%list, (snd acc ++ [currentID (waitress d)])%list)
    (snd (register_started
            {| ziGateObject := o; rules := r; extraParameters := extra |}
            (timeout_or_default timeout) d)).
Proof.
  unfold register_started, waitress_waitFor, waiter_start. simpl.
  unfold waitress_waitFor, waiter_start. unfold_m. simpl. reflexivity.
Qed.

Lemma forEach_response_registers (o : ZiGateObject) (extra : option jsval)
  (timeout : option Z) (rs : list ZiGateResponseMatcher) :
  forall (acc : list nat * list nat) (d : ZiGate),
  exists d1 ids,
    forEach_response o extra timeout rs acc d
    = (Ok ((fst acc ++ ids)%list, (snd acc ++ ids)%list), d1) /\
    registers d d1 ids /\
    List.length ids = List.length rs.
Proof.
  induction rs as [|r rest IH]; intros acc d.
  - exists d, []. simpl. unfold mret. rewrite !app_nil_r.
    destruct acc. split; [reflexivity|]. split; [apply registers_nil | reflexivity].
  - rewrite forEach_response_step.
    pose proof (registers_one {| ziGateObject := o; rules := r; extraParameters := extra |}
                  (timeout_or_default timeout) d) as Hone.
    destruct (IH ((fst acc ++ [currentID (waitress d)])%list,
                  (snd acc ++ [currentID (waitress d)])%list)
                 (snd (register_started
                         {| ziGateObject := o; rules := r; extraParameters := extra |}
                         (timeout_or_default timeout) d)))
      as [d1 [ids [Hrun [Hreg Hlen]]]].
    exists d1, (currentID (waitress d) :: ids). split; [|split].
    + rewrite Hrun. simpl. rewrite <- !app_assoc. reflexivity.
    + exact (registers_trans _ _ _ _ _ Hone Hreg).
    + simpl. congruence.
Qed.

Lemma status_register_run (m : WaitressMatcher) (timeout : Z) (d : ZiGate) :
  (id <- waitress_waitFor m timeout ;; p <- waiter_start id ;; mret (Some p))%drv d
  = (Ok (Some (currentID (waitress d))), snd (register_started m timeout d)).
Proof.
  unfold register_started, waitress_waitFor, waiter_start. unfold_m. reflexivity.
Qed.

(** Lines 101-118 as a whole: the response waiters get the fresh IDs in
    order, then the status waiter the next one; all of them are started. *)
Lemma sendCommand_register_registers {Frame} (env : Collaborators Frame)
  (o : ZiGateObject) (timeout : option Z) (extra : option jsval) (disableResponse : bool)
  (d : ZiGate) :
  exists d1 ids,
    sendCommand_register env o timeout extra disableResponse d
    = (Ok (ids, ids,
           if waitStatus_not_false o
           then Some (currentID (waitress d) + List.length ids)%nat
           else None), d1) /\
    registers d d1
      (ids ++ if waitStatus_not_false o
              then [(currentID (waitress d) + List.length ids)%nat] else []) /\
    List.length ids =
    (if negb disableResponse
     then match response (command o) with
          | Some rs => List.length rs
          | None => 0%nat
          end
     else 0%nat).
Proof.
  unfold sendCommand_register.
  assert (Hws : exists d0 ids,
             (if negb disableResponse
              then match response (command o) with
                   | Some rs => forEach_response o extra timeout rs ([], [])
                   | None => mret ([], [])
                   end
              else mret ([], [])) d = (Ok (ids, ids), d0) /\
             registers d d0 ids /\
             List.length ids =
             (if negb disableResponse
              then match response (command o) with
                   | Some rs => List.length rs
                   | None => 0%nat
                   end
              else 0%nat)).
  { destruct (negb disableResponse).
    - destruct (response (command o)) as [rs|].
      + destruct (forEach_response_registers o extra timeout rs ([], []) d)
          as [d0 [ids [Hrun [Hreg Hlen]]]].
        exists d0, ids. simpl in Hrun. auto.
      + exists d, []. unfold mret.
        split; [reflexivity|]. split; [apply registers_nil | reflexivity].
    - exists d, []. unfold mret.
      split; [reflexivity|]. split; [apply registers_nil | reflexivity]. }
  destruct Hws as [d0 [ids [Hrun [Hreg Hlen]]]].
  unfold mbind at 1. rewrite Hrun.
  destruct (waitStatus_not_false o).
  - pose proof (registers_one
                  {| ziGateObject := o; rules := ruleStatus env o; extraParameters := None |}
                  (timeout_or_default timeout) d0) as Hone.
    unfold mbind at 1. rewrite status_register_run. unfold mret.
    exists (snd (register_started
                   {| ziGateObject := o; rules := ruleStatus env o;
                      extraParameters := None |}
                   (timeout_or_default timeout) d0)), ids.
    rewrite (reg_currentID _ _ _ Hreg) in *.
    split; [reflexivity|]. split; [|exact Hlen].
    exact (registers_trans _ _ _ _ _ Hreg Hone).
  - unfold mbind, mret. exists d0, ids. rewrite app_nil_r. auto.
Qed.

(** *** Removal *)

Lemma remove_all_run (ids : list nat) : forall d : ZiGate,
  remove_all ids d =
  (Ok tt,
   {| initialized := initialized d; serialPort := serialPort d;
      socketPort := socketPort d; portWrite := portWrite d;
      waitress := remove_ids ids (waitress d);
      trace := (trace d ++ map ERemove ids)%list |}).
Proof.
  induction ids as [|id rest IH]; intros d; simpl.
  - unfold mret. rewrite app_nil_r. destruct d; reflexivity.
  - unfold mbind at 1. unfold waitress_remove. unfold_m. simpl.
    rewrite IH. simpl. rewrite <- app_assoc. reflexivity.
Qed.

Lemma lookup_filter_ID (keep : nat -> bool) (id : nat) (ws : list Waiter) :
  Registry.lookup id (filter (fun x => keep (ID x)) ws)
  = if keep id then Registry.lookup id ws else None.
Proof.
  induction ws as [|y rest IH]; simpl.
  - destruct (keep id); reflexivity.
  - destruct (Nat.eqb (ID y) id) eqn:Hy.
    + pose proof (proj1 (Nat.eqb_eq _ _) Hy) as Hid.
      rewrite <- Hid in IH |- *.
      destruct (keep (ID y)) eqn:Hk; simpl.
      * rewrite Nat.eqb_refl. reflexivity.
      * exact IH.
    + destruct (keep (ID y)); simpl; [rewrite Hy|]; exact IH.
Qed.

Lemma registered_remove (id id' : nat) (w : Waitress) :
  Registry.registered id (Registry.remove id' w)
  = negb (Nat.eqb id id') && Registry.registered id w.
Proof.
  unfold Registry.registered, Registry.remove. simpl.
  rewrite (lookup_filter_ID (fun i => negb (Nat.eqb i id'))).
  destruct (Nat.eqb id id'); reflexivity.
Qed.

Lemma registered_remove_ids (ids : list nat) : forall (id : nat) (w : Waitress),
  Registry.registered id (remove_ids ids w)
  = negb (existsb (Nat.eqb id) ids) && Registry.registered id w.
Proof.
  induction ids as [|i rest IH]; intros id w; simpl.
  - reflexivity.
  - unfold remove_ids in *. simpl. rewrite IH, registered_remove.
    destruct (Nat.eqb id i), (existsb (Nat.eqb id) rest); reflexivity.
Qed.

Lemma existsb_eqb_In (id : nat) (ids : list nat) :
  existsb (Nat.eqb id) ids = true <-> In id ids.
Proof.
  rewrite existsb_exists. split.
  - intros [x [Hin Heq]]. apply Nat.eqb_eq in Heq. subst. exact Hin.
  - intros Hin. exists id. split; [exact Hin | apply Nat.eqb_refl].
Qed.

(** *** The synchronous part of [sendCommand] *)

(** A call that reaches the [await] has built its request, needs a status,
    has registered and started its waiters under fresh IDs, the status
    waiter last, and has written the frame. *)
Lemma sendCommand_await_inv {Frame} (env : Collaborators Frame)
  (cmdCode : Z) (cmdPayload : jsval) (timeout : option Z) (extra : option jsval)
  (disableResponse : bool) (d d1 : ZiGate) (p : nat) (ws ids : list nat) :
  sendCommand env cmdCode cmdPayload timeout extra disableResponse d
  = (Ok (AwaitStatus p ws ids), d1) ->
  exists o dreg port buffer,
    createRequest env cmdCode cmdPayload = Ok o /\
    waitStatus_not_false o = true /\
    ws = ids /\
    p = (currentID (waitress d) + List.length ids)%nat /\
    registers d dreg (ids ++ [p]) /\
    waitress d1 = waitress dreg /\
    trace d1 = (trace dreg ++ [EWrite port buffer])%list /\
    List.length ids =
    (if negb disableResponse
     then match response (command o) with
          | Some rs => List.length rs
          | None => 0%nat
          end
     else 0%nat).
Proof.
  unfold sendCommand, mcatch, mbind at 1, lift.
  destruct (createRequest env cmdCode cmdPayload) as [o|e]; [|discriminate].
  unfold mbind at 1.
  destruct (toZiGateFrame env o) as [frame|e]; [|discriminate].
  unfold mbind at 1.
  destruct (toBuffer env frame) as [buffer|e]; [|discriminate].
  unfold mbind at 1.
  destruct (sendCommand_register_registers env o timeout extra disableResponse d)
    as [dreg [ids0 [Hrun [Hreg Hlen]]]].
  rewrite Hrun. unfold mbind at 1, port_write. unfold_m. simpl.
  destruct (portWrite dreg) as [port|]; simpl; [|discriminate].
  destruct (write env port buffer) as [[]|e]; simpl; [|discriminate].
  destruct (waitStatus_not_false o) eqn:Hws; simpl; [|discriminate].
  intros H. inversion H; subst. clear H.
  exists o, dreg, port, buffer. simpl. repeat split; auto.
  all: apply Hreg.
Qed.

(** ** Status confirmation *)

Lemma resume_failed_status {Frame} (env : Collaborators Frame) (p : nat)
  (ws ids : list nat) (d : ZiGate) (statusResponse : ZiGateObject) (status : jsval) :
  Registry.promise p (waitress d) = Fulfilled statusResponse ->
  get_member (payload statusResponse) "status" = Ok status ->
  strict_eq_num status (E_SL_MSG_STATUS_SUCCESS env) = false ->
  resume env (AwaitStatus p ws ids) d =
  (Ok (Settled (RejectedWith (ReasonObject statusResponse))),
   {| initialized := initialized d; serialPort := serialPort d;
      socketPort := socketPort d; portWrite := portWrite d;
      waitress := remove_ids ids (waitress d);
      trace := (trace d ++ map ERemove ids)%list |}).
Proof.
  intros Hp Hget Hne.
  unfold resume, resume_await, sendCommand_after_status.
  unfold mbind at 1. unfold mbind at 1. unfold this at 1.
  rewrite Hp. unfold mcatch, mbind at 1, lift. rewrite Hget, Hne. simpl.
  unfold mbind at 1. rewrite remove_all_run. reflexivity.
Qed.

(** C1: when the status a call awaits arrives with a [payload.status]
    other than the success code, the call removes every response waiter
    it registered from the registry and rejects with the status object
    itself. *)
Theorem sendCommand_failed_status_rejects {Frame} (env : Collaborators Frame)
  (cmdCode : Z) (cmdPayload : jsval) (timeout : option Z) (extra : option jsval)
  (disableResponse : bool) (d d1 d2 : ZiGate) (p : nat) (ws ids : list nat)
  (statusResponse : ZiGateObject) (status : jsval) :
  sendCommand env cmdCode cmdPayload timeout extra disableResponse d
  = (Ok (AwaitStatus p ws ids), d1) ->
  Registry.promise p (waitress d2) = Fulfilled statusResponse ->
  get_member (payload statusResponse) "status" = Ok status ->
  strict_eq_num status (E_SL_MSG_STATUS_SUCCESS env) = false ->
  (forall id,
      (currentID (waitress d) <= id < currentID (waitress d1))%nat ->
      id = p \/ In id ids) /\
  fst (resume env (AwaitStatus p ws ids) d2)
  = Ok (Settled (RejectedWith (ReasonObject statusResponse))) /\
  (forall id,
      In id ids ->
      Registry.registered id (waitress (snd (resume env (AwaitStatus p ws ids) d2))) = false) /\
  (forall id,
      ~ In id ids ->
      Registry.registered id (waitress (snd (resume env (AwaitStatus p ws ids) d2)))
      = Registry.registered id (waitress d2)).
Proof.
  intros Hsend Hp Hget Hne.
  destruct (sendCommand_await_inv _ _ _ _ _ _ _ _ _ _ _ Hsend)
    as [o [dreg [port [buffer [_ [_ [_ [Hpid [Hreg [Hw [_ _]]]]]]]]]]].
  rewrite (resume_failed_status env p ws ids d2 statusResponse status Hp Hget Hne).
  simpl. split; [|split; [reflexivity|split]].
  - intros id Hrange. rewrite Hw, (reg_currentID _ _ _ Hreg) in Hrange.
    assert (Hin : In id (ids ++ [p])).
    { rewrite (reg_ids _ _ _ Hreg). apply in_seq. lia. }
    apply in_app_or in Hin. destruct Hin as [Hin|[Hin|[]]]; auto.
  - intros id Hin. rewrite registered_remove_ids.
    rewrite (proj2 (existsb_eqb_In id ids) Hin). reflexivity.
  - intros id Hnot. rewrite registered_remove_ids.
    destruct (existsb (Nat.eqb id) ids) eqn:Hex; [|reflexivity].
    apply existsb_eqb_In in Hex. contradiction.
Qed.

Lemma sendCommand_failed_status_rejects_witness :
  fst (resume Sample.env (AwaitStatus 1 [0%nat] [0%nat]) Sample.failed_9)
  = Ok (Settled (RejectedWith (ReasonObject Sample.status_failed_9))) /\
  Registry.registered 0
    (waitress (snd (resume Sample.env (AwaitStatus 1 [0%nat] [0%nat]) Sample.failed_9)))
  = false.
Proof.
  destruct (sendCommand_failed_status_rejects Sample.env 9 (VObj []) None None false
              Sample.opened Sample.sent_9 Sample.failed_9 1 [0%nat] [0%nat]
              Sample.status_failed_9 (VNum 1)
              eq_refl eq_refl eq_refl eq_refl)
    as [_ [Hreject [Hremoved _]]].
  split; [exact Hreject|].
  apply Hremoved. left. reflexivity.
Defined.

(** C6: when a call that registered no response waiter gets its status
    and the status is the success code, the call resolves with the status
    object itself and touches nothing. *)
Theorem sendCommand_status_only_resolves {Frame} (env : Collaborators Frame)
  (cmdCode : Z) (cmdPayload : jsval) (timeout : option Z) (extra : option jsval)
  (disableResponse : bool) (d d1 d2 : ZiGate) (p : nat) (ids : list nat)
  (statusResponse : ZiGateObject) (status : jsval) :
  sendCommand env cmdCode cmdPayload timeout extra disableResponse d
  = (Ok (AwaitStatus p [] ids), d1) ->
  Registry.promise p (waitress d2) = Fulfilled statusResponse ->
  get_member (payload statusResponse) "status" = Ok status ->
  strict_eq_num status (E_SL_MSG_STATUS_SUCCESS env) = true ->
  ids = [] /\
  resume env (AwaitStatus p [] ids) d2 = (Ok (Settled (Resolved statusResponse)), d2).
Proof.
  intros Hsend Hp Hget Heq.
  destruct (sendCommand_await_inv _ _ _ _ _ _ _ _ _ _ _ Hsend)
    as [o [dreg [port [buffer [_ [_ [Hws _]]]]]]].
  split; [symmetry; exact Hws|].
  unfold resume, resume_await, sendCommand_after_status.
  unfold mbind at 1. unfold mbind at 1. unfold this at 1.
  rewrite Hp. unfold mcatch, mbind at 1, lift. rewrite Hget, Heq. reflexivity.
Qed.

Lemma sendCommand_status_only_resolves_witness :
  resume Sample.env (AwaitStatus 0 [] []) Sample.confirmed_2
  = (Ok (Settled (Resolved Sample.status_ok_2)), Sample.confirmed_2).
Proof.
  apply (sendCommand_status_only_resolves Sample.env 2 (VObj []) None None false
           Sample.opened Sample.sent_2 Sample.confirmed_2 0 []
           Sample.status_ok_2 (VNum 0)
           eq_refl eq_refl eq_refl eq_refl).
Defined.

(** ** A call without expectations *)

Lemma step_race_nil {Frame} (env : Collaborators Frame) (d : ZiGate) (ev : Event) :
  step env (Race [], d) ev = (Race [], snd (handle env ev d)).
Proof. reflexivity. Qed.

Lemma run_race_nil {Frame} (env : Collaborators Frame) (evs : list Event) :
  forall d : ZiGate, fst (run env (Race [], d) evs) = Race [].
Proof.
  unfold run. induction evs as [|ev rest IH]; intros d; simpl.
  - reflexivity.
  - rewrite step_race_nil. apply IH.
Qed.

(** C10: a call with [disableResponse] on a command whose [waitStatus] is
    [false] registers no expectation; once the write has gone through it
    returns the race of no promise at all, and no event that follows ever
    settles it. *)
Theorem sendCommand_without_expectations_never_settles {Frame}
  (env : Collaborators Frame) (cmdCode : Z) (cmdPayload : jsval) (timeout : option Z)
  (extra : option jsval) (d : ZiGate) (o : ZiGateObject) (frame : Frame)
  (buffer : list Z) (port : Port) :
  createRequest env cmdCode cmdPayload = Ok o ->
  waitStatus (command o) = Some false ->
  toZiGateFrame env o = Ok frame ->
  toBuffer env frame = Ok buffer ->
  portWrite d = Some port ->
  write env port buffer = Ok tt ->
  sendCommand env cmdCode cmdPayload timeout extra true d
  = (Ok (Race []),
     {| initialized := initialized d; serialPort := serialPort d;
        socketPort := socketPort d; portWrite := portWrite d;
        waitress := waitress d;
        trace := (trace d ++ [EWrite port buffer])%list |}) /\
  (forall evs,
      fst (sendCommand_run env cmdCode cmdPayload timeout extra true d evs) = Race []).
Proof.
  intros Hreq Hws Hframe Hbuf Hport Hwrite.
  assert (Hsend :
            sendCommand env cmdCode cmdPayload timeout extra true d
            = (Ok (Race []),
               {| initialized := initialized d; serialPort := serialPort d;
                  socketPort := socketPort d; portWrite := portWrite d;
                  waitress := waitress d;
                  trace := (trace d ++ [EWrite port buffer])%list |})).
  { unfold sendCommand, sendCommand_register, port_write, waitStatus_not_false.
    unfold_m. rewrite Hreq, Hframe, Hbuf, Hws. simpl.
    rewrite Hport. simpl. rewrite Hwrite. simpl. rewrite <- Hport. reflexivity. }
  split; [exact Hsend|].
  intros evs. unfold sendCommand_run. rewrite Hsend. apply run_race_nil.
Qed.

Lemma sendCommand_without_expectations_never_settles_witness :
  fst (sendCommand_run Sample.env 17 (VObj []) None None true Sample.opened
         [SerialData [32774]; TimerExpired 0; SerialData [32768; 0; 17]; PortClosed])
  = Race [].
Proof.
  destruct (sendCommand_without_expectations_never_settles
              Sample.env 17 (VObj []) None None Sample.opened
              {| code := 17; payload := VObj []; command := Sample.command_of 17 |}
              [17] [17] SerialPortHandle
              eq_refl eq_refl eq_refl eq_refl eq_refl eq_refl)
    as [_ Hnever].
  apply Hnever.
Defined.

(** ** Timers of the response waiters *)

(** C3, as the claim states it, fails: the response waiter of command 9
    has its timer running in the state the write happens in, and its
    [start()] comes ahead of the write in the trace. *)
Lemma response_timer_runs_before_write :
  fst (sendCommand_register Sample.env Sample.request_9 None None false Sample.opened)
  = Ok ([0%nat], [0%nat], Some 1%nat) /\
  timer_running 0
    (waitress (snd (sendCommand_register Sample.env Sample.request_9 None None false
                      Sample.opened))) = true /\
  trace Sample.sent_9
  = [EWaitFor 0; EStart 0; EWaitFor 1; EStart 1; EWrite SerialPortHandle [9]].
Proof. repeat split; reflexivity. Qed.

Lemma resume_race_keeps_state (c : SendCommand) (d : ZiGate) :
  snd (resume_race c d) = d.
Proof.
  destruct c as [p ws ids|ws|s]; simpl; try reflexivity.
  unfold_m. destruct (race ws (waitress d)); reflexivity.
Qed.

(** ** Failures ahead of the status *)

(** C2 fails on the code: on a driver whose port is gone the write of
    command 9 throws after both waiters are registered; the call rejects
    with the wrapped error and leaves the response waiter and the status
    waiter in the registry, timers running. *)
Theorem sendCommand_write_failure_leaves_waiters :
  fst (sendCommand Sample.env 9 (VObj []) None None false Sample.closed)
  = Ok (Settled (RejectedWith (ReasonError
          (WrappedError "sendCommand error: "
             (TypeError "Cannot read properties of undefined (reading 'write')"))))) /\
  trace (snd (sendCommand Sample.env 9 (VObj []) None None false Sample.closed))
  = [EWaitFor 0; EStart 0; EWaitFor 1; EStart 1;
     ELogError (TypeError "Cannot read properties of undefined (reading 'write')")] /\
  Registry.registered 0
    (waitress (snd (sendCommand Sample.env 9 (VObj []) None None false Sample.closed)))
  = true /\
  timer_running 0
    (waitress (snd (sendCommand Sample.env 9 (VObj []) None None false Sample.closed)))
  = true /\
  Registry.registered 1
    (waitress (snd (sendCommand Sample.env 9 (VObj []) None None false Sample.closed)))
  = true /\
  timer_running 1
    (waitress (snd (sendCommand Sample.env 9 (VObj []) None None false Sample.closed)))
  = true.
Proof. repeat split; reflexivity. Qed.

(** The same on every driver and for every command: when the write
    throws, the call rejects with the wrapped error and the registry is
    the one the registrations left, every waiter of the call started. *)
Lemma sendCommand_write_failure_removes_nothing {Frame} (env : Collaborators Frame)
  (cmdCode : Z) (cmdPayload : jsval) (timeout : option Z) (extra : option jsval)
  (disableResponse : bool) (d : ZiGate) (o : ZiGateObject) (frame : Frame)
  (buffer : list Z) :
  createRequest env cmdCode cmdPayload = Ok o ->
  toZiGateFrame env o = Ok frame ->
  toBuffer env frame = Ok buffer ->
  portWrite d = None \/
  (exists port e, portWrite d = Some port /\ write env port buffer = Throw e) ->
  exists e dreg ids,
    fst (sendCommand env cmdCode cmdPayload timeout extra disableResponse d)
    = Ok (Settled (RejectedWith (ReasonError (WrappedError "sendCommand error: " e)))) /\
    registers d dreg ids /\
    waitress (snd (sendCommand env cmdCode cmdPayload timeout extra disableResponse d))
    = waitress dreg /\
    (forall id,
        In id ids ->
        timer_running id
          (waitress (snd (sendCommand env cmdCode cmdPayload timeout extra
                            disableResponse d))) = true).
Proof.
  intros Hreq Hframe Hbuf Hfail.
  destruct (sendCommand_register_registers env o timeout extra disableResponse d)
    as [dreg [ids [Hrun [Hreg Hlen]]]].
  assert (Hsend : exists e added,
             sendCommand env cmdCode cmdPayload timeout extra disableResponse d
             = (Ok (Settled (RejectedWith
                               (ReasonError (WrappedError "sendCommand error: " e)))),
                {| initialized := initialized dreg; serialPort := serialPort dreg;
                   socketPort := socketPort dreg; portWrite := portWrite dreg;
                   waitress := waitress dreg;
                   trace := (trace dreg ++ added)%list |})).
  { unfold sendCommand, mcatch, mbind at 1, lift. rewrite Hreq.
    unfold mbind at 1. rewrite Hframe. unfold mbind at 1. rewrite Hbuf.
    unfold mbind at 1. rewrite Hrun. unfold mbind at 1, port_write. unfold_m. simpl.
    pose proof (reg_portWrite _ _ _ Hreg) as Hport.
    destruct Hfail as [Hnone | [port [e [Hsome Hthrow]]]].
    - rewrite Hnone in Hport. rewrite Hport. simpl.
      exists (TypeError "Cannot read properties of undefined (reading 'write')").
      eexists. unfold sendCommand_catch. unfold_m. simpl. rewrite Hport. reflexivity.
    - rewrite Hsome in Hport. rewrite Hport. simpl. rewrite Hthrow. simpl.
      exists e, [EWrite port buffer; ELogError e].
      unfold sendCommand_catch. unfold_m. simpl.
      rewrite <- app_assoc, Hport. reflexivity. }
  destruct Hsend as [e [added Hsend]]. rewrite Hsend. simpl.
  exists e, dreg. eexists.
  split; [reflexivity|]. split; [exact Hreg|]. split; [reflexivity|].
  apply (reg_started _ _ _ Hreg).
Qed.

(** ** Order of the rules *)

Lemma forallb_permutation {A} (f : A -> bool) (l l' : list A) :
  Permutation l l' -> forallb f l = forallb f l'.
Proof.
  induction 1 as [|x l l' _ IH|x y l|l l' l'' _ IH1 _ IH2]; simpl.
  - reflexivity.
  - rewrite IH. reflexivity.
  - destruct (f x), (f y); reflexivity.
  - congruence.
Qed.

(** The answer of the matcher does not depend on the order of its rules. *)
Lemma waitressValidator_order_independent (received request : ZiGateObject)
  (extra : option jsval) (rs rs' : ZiGateResponseMatcher) :
  Permutation rs rs' ->
  waitressValidator received
    {| ziGateObject := request; rules := rs; extraParameters := extra |}
  = waitressValidator received
      {| ziGateObject := request; rules := rs'; extraParameters := extra |}.
Proof.
  intros Hperm. rewrite !waitressValidator_forallb. simpl. f_equal.
  apply (forallb_permutation _ _ _ Hperm).
Qed.

(** ** Inbound frames and the command in flight *)

(** The reactions of a command read the registry and nothing else of the
    instance. *)
Lemma resume_reads_registry {Frame} (env : Collaborators Frame) (c : SendCommand)
  (d1 d2 : ZiGate) :
  waitress d1 = waitress d2 ->
  fst (resume env c d1) = fst (resume env c d2).
Proof.
  intros Hw.
  unfold resume, resume_await, resume_race, sendCommand_after_status, sendCommand_catch.
  destruct c as [p ws ids|ws|s]; unfold_m; simpl; rewrite ?Hw.
  - destruct (Registry.promise p (waitress d2)) as [|o|e]; simpl; auto.
    destruct (get_member (payload o) "status") as [status|e]; simpl; auto.
    destruct (negb (strict_eq_num status (E_SL_MSG_STATUS_SUCCESS env))); simpl.
    + rewrite !remove_all_run. reflexivity.
    + destruct (Nat.eqb (List.length ws) 0); simpl; auto.
      rewrite Hw. destruct (race ws (waitress d2)); reflexivity.
  - destruct (race ws (waitress d2)); reflexivity.
  - reflexivity.
Qed.

(** C9: [onSerialData] never throws, whatever the codec, the registry or
    a listener does; it leaves [initialized] and [portWrite] alone, never
    emits the close event and rejects no promise of a waiter; and a chunk
    the codec fails on is logged and dropped, with the registry as it
    was, so that a command in flight goes on as if the chunk had not
    come. *)
Theorem onSerialData_contains_failures {Frame} (env : Collaborators Frame)
  (buffer : list Z) (d : ZiGate) :
  fst (onSerialData env buffer d) = Ok tt /\
  initialized (snd (onSerialData env buffer d)) = initialized d /\
  portWrite (snd (onSerialData env buffer d)) = portWrite d /\
  (exists added,
      trace (snd (onSerialData env buffer d)) = (trace d ++ added)%list /\
      count_close added = 0%nat) /\
  (forall id e,
      Registry.promise id (waitress (snd (onSerialData env buffer d))) = Rejected e ->
      Registry.promise id (waitress d) = Rejected e) /\
  (forall e,
      decode env buffer = Throw e ->
      waitress (snd (onSerialData env buffer d)) = waitress d /\
      trace (snd (onSerialData env buffer d)) = (trace d ++ [ELogError e])%list /\
      (forall c,
          fst (resume env c (snd (onSerialData env buffer d))) = fst (resume env c d))).
Proof.
  assert (Hresume : forall e,
             decode env buffer = Throw e ->
             waitress (snd (onSerialData env buffer d)) = waitress d ->
             forall c,
               fst (resume env c (snd (onSerialData env buffer d)))
               = fst (resume env c d)).
  { intros e _ Hw c. apply (resume_reads_registry env c _ _ Hw). }
  revert Hresume.
  unfold onSerialData, decode, waitress_resolve, rbind. unfold_m.
  destruct (newZiGateFrame env buffer) as [frame|e1]; simpl.
  2:{ intros Hresume. split; [reflexivity|]. split; [reflexivity|].
      split; [reflexivity|]. split; [exists [ELogError e1]; split; reflexivity|].
      split; [tauto|]. intros e He. inversion He; subst.
      split; [reflexivity|]. split; [reflexivity|].
      apply (Hresume e eq_refl eq_refl). }
  destruct (readMsgCode env frame) as [msgCode|e2]; simpl.
  2:{ intros Hresume. split; [reflexivity|]. split; [reflexivity|].
      split; [reflexivity|]. split; [exists [ELogError e2]; split; reflexivity|].
      split; [tauto|]. intros e He. inversion He; subst.
      split; [reflexivity|]. split; [reflexivity|].
      apply (Hresume e eq_refl eq_refl). }
  destruct (fromZiGateFrame env frame) as [o|e3]; simpl.
  2:{ intros Hresume. split; [reflexivity|]. split; [reflexivity|].
      split; [reflexivity|]. split; [exists [ELogError e3]; split; reflexivity|].
      split; [tauto|]. intros e He. inversion He; subst.
      split; [reflexivity|]. split; [reflexivity|].
      apply (Hresume e eq_refl eq_refl). }
  intros _.
  destruct (Registry.resolve waitressValidator o (waitress d)) as [w|e4] eqn:Hres; simpl.
  2:{ repeat split; try tauto; try discriminate.
      exists [ELogError e4]. split; reflexivity. }
  match goal with
  | |- context [dispatch env msgCode o ?d1] =>
      destruct (dispatch_appends env msgCode o d1) as [added [Hsnd Hcount]];
      destruct (dispatch env msgCode o d1) as [[[]|e5] d2]
  end; simpl in Hsnd; subst d2; simpl.
  - repeat split; try discriminate.
    + exists added. split; [reflexivity | exact Hcount].
    + intros id e. apply (resolve_rejects_nothing _ _ _ _ _ _ Hres).
  - repeat split; try discriminate.
    + exists (added ++ [ELogError e5])%list. split.
      * rewrite app_assoc. reflexivity.
      * rewrite count_close_app, Hcount. reflexivity.
    + intros id e. apply (resolve_rejects_nothing _ _ _ _ _ _ Hres).
Qed.

Lemma onSerialData_contains_failures_witness :
  decode Sample.env [32768; 0] = Throw (ExternalError "malformed frame") /\
  fst (onSerialData Sample.env [32768; 0] Sample.opened) = Ok tt /\
  waitress (snd (onSerialData Sample.env [32768; 0] Sample.opened)) = waitress Sample.opened /\
  trace (snd (onSerialData Sample.env [32768; 0] Sample.opened))
  = [ELogError (ExternalError "malformed frame")].
Proof.
  destruct (onSerialData_contains_failures Sample.env [32768; 0] Sample.opened)
    as [Hok [_ [_ [_ [_ Hdrop]]]]].
  destruct (Hdrop (ExternalError "malformed frame") eq_refl) as [Hw [Ht _]].
  split; [reflexivity|]. split; [exact Hok|]. split; [exact Hw | exact Ht].
Defined.

(** * Further properties *)

(** ** Hexadecimal labels *)

Lemma length_zeros k : String.length (zeros k) = k.
Proof. induction k; simpl; congruence. Qed.

Lemma length_append (s1 s2 : string) :
  String.length (s1 ++ s2) = (String.length s1 + String.length s2)%nat.
Proof. induction s1; simpl; congruence. Qed.

(** The label is as long as the longer of the numeral and the size. *)
Lemma zeroPad_length (number : Z) (size : option Z) :
  String.length (zeroPad number size)
  = Nat.max (String.length (toString16 number))
      (Z.to_nat match size with Some s => if s =? 0 then 4 else s | None => 4 end).
Proof.
  unfold zeroPad, padStart_zero. rewrite length_append, length_zeros. lia.
Qed.

Lemma uint_of_string_zeros (k : nat) (s : string) :
  HexadecimalString.NilEmpty.uint_of_string (zeros k ++ s)
  = option_map (Nat.iter k Hexadecimal.D0) (HexadecimalString.NilEmpty.uint_of_string s).
Proof.
  induction k as [|k IH]; simpl.
  - destruct (HexadecimalString.NilEmpty.uint_of_string s); reflexivity.
  - rewrite IH. destruct (HexadecimalString.NilEmpty.uint_of_string s); reflexivity.
Qed.

Lemma of_hex_uint_leading_zeros (k : nat) (d : Hexadecimal.uint) :
  Z.of_hex_uint (Nat.iter k Hexadecimal.D0 d) = Z.of_hex_uint d.
Proof.
  induction k as [|k IH]; simpl; [reflexivity|].
  rewrite <- IH. reflexivity.
Qed.

Lemma parseHex_zeros (k : nat) (d : Hexadecimal.uint) :
  d <> Hexadecimal.Nil ->
  parseHex (zeros k ++ HexadecimalString.NilZero.string_of_uint d) = Some (Z.of_hex_uint d).
Proof.
  intros Hd. unfold parseHex, HexadecimalString.NilZero.int_of_string.
  assert (Hu : HexadecimalString.NilEmpty.uint_of_string
                 (zeros k ++ HexadecimalString.NilZero.string_of_uint d)
               = Some (Nat.iter k Hexadecimal.D0 d)).
  { rewrite uint_of_string_zeros.
    replace (HexadecimalString.NilZero.string_of_uint d)
      with (HexadecimalString.NilEmpty.string_of_uint d) by (destruct d; try reflexivity; contradiction).
    rewrite HexadecimalString.NilEmpty.usu. reflexivity. }
  destruct (zeros k ++ HexadecimalString.NilZero.string_of_uint d) as [|a s'] eqn:Hs.
  - destruct k; destruct d; simpl in Hs; congruence.
  - destruct (Ascii.eqb a "-") eqn:Ha.
    + apply Ascii.eqb_eq in Ha. subst a. simpl in Hu.
      destruct (HexadecimalString.NilEmpty.uint_of_string s'); discriminate.
    + unfold HexadecimalString.NilZero.uint_of_string. rewrite Hu. simpl.
      rewrite of_hex_uint_leading_zeros. reflexivity.
Qed.

(** X1: for a number that is not negative, the padded label read back as
    a hexadecimal numeral is the number: padding adds leading zeros only
    and never cuts a digit. *)
Theorem zeroPad_round_trip (number : Z) (size : option Z) :
  0 <= number -> parseHex (zeroPad number size) = Some number.
Proof.
  intros Hn. unfold zeroPad, padStart_zero, toString16.
  assert (Hd : exists d, Z.to_hex_int number = Hexadecimal.Pos d /\ d <> Hexadecimal.Nil).
  { destruct number as [|p|p]; simpl.
    - eexists. split; [reflexivity | discriminate].
    - eexists. split; [reflexivity | apply HexadecimalPos.Unsigned.to_uint_nonnil].
    - lia. }
  destruct Hd as [d [Hd Hnil]].
  rewrite Hd. simpl HexadecimalString.NilZero.string_of_int.
  rewrite (parseHex_zeros _ d Hnil). f_equal.
  change (Z.of_hex_uint d) with (Z.of_hex_int (Hexadecimal.Pos d)).
  rewrite <- Hd. apply HexadecimalZ.of_to.
Qed.

Lemma all_from_spec (f : Z -> bool) (fuel : nat) : forall n m,
  all_from fuel n f = true -> n <= m < n + Z.of_nat fuel -> f m = true.
Proof.
  induction fuel as [|k IH]; intros n m Hall Hm.
  - lia.
  - simpl in Hall. apply andb_prop in Hall. destruct Hall as [Hn Hrest].
    destruct (Z.eq_dec m n) as [->|Hne]; [exact Hn|].
    apply (IH (n + 1)); [exact Hrest | lia].
Qed.

Lemma toString16_short (number : Z) :
  0 <= number < 65536 -> (String.length (toString16 number) <= 4)%nat.
Proof.
  intros Hn. apply Nat.leb_le.
  apply (all_from_spec (fun n => Nat.leb (String.length (toString16 n)) 4)
           (Z.to_nat 65536) 0 number); [vm_compute; reflexivity | lia].
Qed.

(** X2: with the default size, the label of a 16-bit code has exactly
    four characters. *)
Theorem zeroPad_four_digits (number : Z) :
  0 <= number < 65536 -> String.length (zeroPad number None) = 4%nat.
Proof.
  intros Hn. rewrite zeroPad_length. pose proof (toString16_short number Hn). simpl. lia.
Qed.

Lemma zeroPad_round_trip_witness :
  zeroPad 32768 None = "8000" /\ parseHex (zeroPad 32768 None) = Some 32768.
Proof.
  split; [reflexivity|].
  apply (zeroPad_round_trip 32768 None). discriminate.
Defined.

Lemma zeroPad_four_digits_witness : String.length (zeroPad 77 None) = 4%nat.
Proof.
  apply (zeroPad_four_digits 77). split; [discriminate | reflexivity].
Defined.

(** ** Property paths *)

Lemma split_nonempty (sep : ascii) (s : string) : split sep s <> [].
Proof.
  destruct s as [|c rest]; simpl; [discriminate|].
  destruct (Ascii.eqb c sep); [discriminate|].
  destruct (split sep rest); discriminate.
Qed.

Lemma split_app (sep : ascii) (a b : string) :
  split sep (a ++ String sep b) = (split sep a ++ split sep b)%list.
Proof.
  induction a as [|c rest IH]; simpl.
  - rewrite Ascii.eqb_refl. reflexivity.
  - destruct (Ascii.eqb c sep); [rewrite IH; reflexivity|].
    rewrite IH. pose proof (split_nonempty sep rest) as Hne.
    destruct (split sep rest) as [|hd tl]; [contradiction | reflexivity].
Qed.

(** The segments of a path, joined by the separator, are the path. *)
Lemma join_split (sep : ascii) (s : string) : join sep (split sep s) = s.
Proof.
  induction s as [|c rest IH]; simpl; [reflexivity|].
  destruct (Ascii.eqb c sep) eqn:Hc.
  - apply Ascii.eqb_eq in Hc. subst c.
    pose proof (split_nonempty sep rest) as Hne.
    destruct (split sep rest) as [|hd tl]; [contradiction|].
    simpl in *. rewrite IH. reflexivity.
  - pose proof (split_nonempty sep rest) as Hne.
    destruct (split sep rest) as [|hd tl]; [contradiction|].
    destruct tl as [|hd' tl']; simpl in *; rewrite <- IH; reflexivity.
Qed.

Lemma reduce_app (p q : list string) : forall v : jsval,
  reduce (p ++ q) v = rbind (reduce p v) (reduce q).
Proof.
  induction p as [|k rest IH]; intros v; simpl; [reflexivity|].
  destruct (truthy v); [|apply IH].
  unfold rbind at 1 3. destruct (get_index v k); [apply IH | reflexivity].
Qed.

(** X3: resolving a dotted path is resolving its first part and then the
    rest on what that gave; a throw of the first part is the throw of the
    whole. *)
Theorem resolve_compose (a b : string) (obj : jsval) :
  resolve (PathString (a ++ String "."%char b)) obj
  = rbind (resolve (PathString a) obj) (resolve (PathString b)).
Proof.
  unfold resolve, resolve_sep. rewrite split_app. apply reduce_app.
Qed.

Lemma reduce_falsy (p : list string) (v : jsval) :
  truthy v = false -> reduce p v = Ok v.
Proof.
  intros Hv. induction p as [|k rest IH]; simpl; [reflexivity|].
  rewrite Hv. exact IH.
Qed.

(** X4: a lookup that reaches [undefined], [null], [false], [0] or the
    empty string part-way yields that very value, whatever segments
    follow, and does not throw. *)
Theorem resolve_stops_at_falsy (a b : string) (obj v : jsval) :
  resolve (PathString a) obj = Ok v ->
  truthy v = false ->
  resolve (PathString (a ++ String "."%char b)) obj = Ok v.
Proof.
  intros Ha Hv. unfold resolve, resolve_sep in *.
  rewrite split_app, reduce_app, Ha. simpl. apply reduce_falsy. exact Hv.
Qed.

Lemma own_property_data_only (k : string) (props : list (string * result jsval))
  (r : result jsval) :
  data_only (VObj props) = true ->
  own_property k props = Some r ->
  exists v, r = Ok v /\ data_only v = true.
Proof.
  induction props as [|[k' r'] rest IH]; simpl; [discriminate|].
  destruct r' as [v'|e]; [|discriminate].
  intros Hd. apply andb_prop in Hd. destruct Hd as [Hv Hrest].
  destruct (String.eqb k k').
  - intros H. inversion H; subst. eauto.
  - apply IH. exact Hrest.
Qed.

Lemma get_index_data_only (v : jsval) (k : string) :
  data_only v = true -> exists v', get_index v k = Ok v' /\ data_only v' = true.
Proof.
  intros Hd. destruct v; simpl; eauto.
  destruct (own_property k props) as [r|] eqn:Hk; [|eauto].
  destruct (own_property_data_only k props r Hd Hk) as [v' [-> Hv']]. eauto.
Qed.

Lemma resolve_stops_at_falsy_witness :
  resolve (PathString "payload.status.detail")
    (as_jsval Sample.status_ok_2) = Ok (VNum 0).
Proof.
  apply (resolve_stops_at_falsy "payload.status" "detail"
           (as_jsval Sample.status_ok_2) (VNum 0)); reflexivity.
Defined.

(** ** The status waiter *)

Lemma resolve_code (o : ZiGateObject) :
  resolve (PathString "code") (as_jsval o) = Ok (VNum (code o)).
Proof. reflexivity. Qed.

Lemma resolve_payload_member (o : ZiGateObject) :
  resolve (PathString "payload.packetType") (as_jsval o)
  = if truthy (payload o) then get_index (payload o) "packetType" else Ok (payload o).
Proof.
  unfold resolve, resolve_sep. simpl.
  destruct (truthy (payload o)); [|reflexivity].
  unfold rbind. destruct (get_index (payload o) "packetType"); reflexivity.
Qed.

Lemma equal_num (c : Z) (r : jsval) : equal (VNum c) r = Ok true <-> r = VNum c.
Proof.
  unfold equal. split.
  - destruct r; intros H; inversion H as [H1]. apply Z.eqb_eq in H1. congruence.
  - intros ->. rewrite Z.eqb_refl. reflexivity.
Qed.

Lemma status_matcher_answer {Frame} (env : Collaborators Frame)
  (o received : ZiGateObject) :
  waitressValidator received (status_matcher env o)
  = Ok ((MessageCode_Status env =? code received)
        && bool_of_result
             (rbind (if truthy (payload received)
                     then get_index (payload received) "packetType"
                     else Ok (payload received))
                    (equal (VNum (code o))))).
Proof.
  rewrite waitressValidator_forallb. unfold status_matcher, ruleStatus.
  cbn [rules forallb]. unfold validator_body, expected_value, received_value.
  cbn [value expectedProperty expectedExtraParameter receivedProperty matcher
       loose_eq_undefined ziGateObject].
  rewrite resolve_code, resolve_payload_member.
  cbn [rbind equal bool_of_result]. rewrite andb_true_r. reflexivity.
Qed.

(** X6: the status waiter of a request is satisfied by exactly the
    objects whose code is the status message code and whose payload is an
    object with [packetType] equal to the code of the request - or, for a
    request of code 0 only, whose payload is the number 0, which the
    resolver hands back as it is. *)
Theorem status_matcher_passes {Frame} (env : Collaborators Frame)
  (o received : ZiGateObject) :
  waitressValidator received (status_matcher env o) = Ok true <->
  code received = MessageCode_Status env /\
  ((exists props,
       payload received = VObj props /\
       own_property "packetType" props = Some (Ok (VNum (code o)))) \/
   (payload received = VNum 0 /\ code o = 0)).
Proof.
  rewrite status_matcher_answer. split.
  - intros H.
    assert (Hb : (MessageCode_Status env =? code received)
                 && bool_of_result
                      (rbind (if truthy (payload received)
                              then get_index (payload received) "packetType"
                              else Ok (payload received))
                             (equal (VNum (code o)))) = true) by congruence.
    clear H. apply andb_prop in Hb. destruct Hb as [Hc Hp].
    apply Z.eqb_eq in Hc. split; [congruence|].
    destruct (payload received) as [| |b|n|s|bytes|props]; simpl in Hp;
      try discriminate.
    + destruct b; discriminate.
    + destruct (n =? 0) eqn:Hn; simpl in Hp; [|discriminate].
      apply Z.eqb_eq in Hn. subst n. right. split; [reflexivity|].
      apply Z.eqb_eq in Hp. exact Hp.
    + destruct (negb (String.eqb s "")); discriminate.
    + left. exists props. split; [reflexivity|].
      destruct (own_property "packetType" props) as [[v|e]|]; simpl in Hp;
        try discriminate.
      destruct v; try discriminate. apply Z.eqb_eq in Hp. congruence.
  - intros [Hc [[props [Hpay Hown]] | [Hpay H0]]]; rewrite Hc, Z.eqb_refl, Hpay; simpl.
    + rewrite Hown. simpl. rewrite Z.eqb_refl. reflexivity.
    + rewrite H0. reflexivity.
Qed.

(** An object that satisfies the status waiter has a payload that is
    neither [undefined] nor [null]. *)
Lemma status_matcher_payload {Frame} (env : Collaborators Frame)
  (o received : ZiGateObject) :
  waitressValidator received (status_matcher env o) = Ok true ->
  get_member (payload received) "status" = get_index (payload received) "status".
Proof.
  rewrite status_matcher_answer. intros H.
  assert (Hb : (MessageCode_Status env =? code received)
               && bool_of_result
                    (rbind (if truthy (payload received)
                            then get_index (payload received) "packetType"
                            else Ok (payload received))
                           (equal (VNum (code o)))) = true) by congruence.
  apply andb_prop in Hb. destruct Hb as [_ Hp].
  destruct (payload received); simpl in Hp; try discriminate; reflexivity.
Qed.

(** X7: for an object that satisfies the status waiter, reading
    [payload.status] at line 125 raises no [TypeError]; it throws only if
    the property itself does, and not at all on a payload of plain data. *)
Theorem status_payload_readable {Frame} (env : Collaborators Frame)
  (o received : ZiGateObject) :
  waitressValidator received (status_matcher env o) = Ok true ->
  get_member (payload received) "status" = get_index (payload received) "status" /\
  (data_only (payload received) = true ->
   exists status, get_member (payload received) "status" = Ok status).
Proof.
  intros H. pose proof (status_matcher_payload env o received H) as Hget.
  split; [exact Hget|]. intros Hd. rewrite Hget.
  destruct (get_index_data_only (payload received) "status" Hd) as [v [Hv _]].
  exists v. exact Hv.
Qed.

(** X8: on a successful status with response waiters registered, the call
    goes on to the race and leaves the instance alone; a response waiter
    that has settled ahead of the status decides the call at once, the
    first such in array order. *)
Theorem resume_successful_status {Frame} (env : Collaborators Frame) (p : nat)
  (ws ids : list nat) (d : ZiGate) (statusResponse : ZiGateObject) (status : jsval) :
  Registry.promise p (waitress d) = Fulfilled statusResponse ->
  get_member (payload statusResponse) "status" = Ok status ->
  strict_eq_num status (E_SL_MSG_STATUS_SUCCESS env) = true ->
  ws <> [] ->
  resume env (AwaitStatus p ws ids) d
  = (Ok match race ws (waitress d) with
        | Some s => Settled s
        | None => Race ws
        end, d).
Proof.
  intros Hp Hget Heq Hws.
  unfold resume, resume_await, sendCommand_after_status.
  unfold mbind at 1. unfold mbind at 1. unfold this at 1.
  rewrite Hp. unfold mcatch, mbind at 1, lift. rewrite Hget, Heq. simpl.
  destruct ws as [|w rest]; [contradiction|].
  change (Nat.eqb (List.length (w :: rest)) 0) with false. cbv iota.
  unfold mret, resume_race, mbind, this.
  destruct (race (w :: rest) (waitress d)); reflexivity.
Qed.

Lemma resume_rejected_status {Frame} (env : Collaborators Frame) (p : nat)
  (ws ids : list nat) (d : ZiGate) (e : JsError) :
  Registry.promise p (waitress d) = Rejected e ->
  resume env (AwaitStatus p ws ids) d
  = (Ok (Settled (RejectedWith (ReasonError (WrappedError "sendCommand error: " e)))),
     {| initialized := initialized d; serialPort := serialPort d;
        socketPort := socketPort d; portWrite := portWrite d;
        waitress := waitress d; trace := (trace d ++ [ELogError e])%list |}).
Proof.
  intros Hp. unfold resume, resume_await.
  unfold mbind at 1. unfold mbind at 1. unfold this at 1. rewrite Hp.
  reflexivity.
Qed.

(** X9: a rejection of the status waiter reaches the caller wrapped in
    ["sendCommand error: "] and logged, with the registry untouched; a
    rejection of a raced response waiter reaches the caller as it is,
    neither wrapped nor logged. *)
Theorem timeout_error_shapes {Frame} (env : Collaborators Frame) (p : nat)
  (ws ids : list nat) (d : ZiGate) (e : JsError) :
  (Registry.promise p (waitress d) = Rejected e ->
   fst (resume env (AwaitStatus p ws ids) d)
   = Ok (Settled (RejectedWith (ReasonError (WrappedError "sendCommand error: " e)))) /\
   waitress (snd (resume env (AwaitStatus p ws ids) d)) = waitress d /\
   trace (snd (resume env (AwaitStatus p ws ids) d)) = (trace d ++ [ELogError e])%list) /\
  (race ws (waitress d) = Some (RejectedWith (ReasonError e)) ->
   resume env (Race ws) d = (Ok (Settled (RejectedWith (ReasonError e))), d)).
Proof.
  split.
  - intros Hp. rewrite (resume_rejected_status env p ws ids d e Hp).
    repeat split; reflexivity.
  - intros Hr. unfold resume, resume_await, resume_race. unfold_m. rewrite Hr. reflexivity.
Qed.

Lemma status_matcher_passes_witness :
  waitressValidator Sample.status_ok_2
    (status_matcher Sample.env
       {| code := 2; payload := VObj []; command := Sample.command_of 2 |})
  = Ok true.
Proof.
  apply (proj2 (status_matcher_passes Sample.env
                  {| code := 2; payload := VObj []; command := Sample.command_of 2 |}
                  Sample.status_ok_2)).
  split; [reflexivity|]. left. eexists. split; reflexivity.
Defined.

Lemma status_payload_readable_witness :
  exists status, get_member (payload Sample.status_failed_9) "status" = Ok status.
Proof.
  destruct (status_payload_readable Sample.env Sample.request_9 Sample.status_failed_9
              eq_refl) as [_ Hread].
  apply Hread. reflexivity.
Defined.

Lemma resume_successful_status_witness :
  resume Sample.env (AwaitStatus 1 [0%nat] [0%nat]) Scenario.confirmed_9
  = (Ok (Race [0%nat]), Scenario.confirmed_9).
Proof.
  apply (resume_successful_status Sample.env 1 [0%nat] [0%nat] Scenario.confirmed_9
           Scenario.status_ok_9 (VNum 0) eq_refl eq_refl eq_refl).
  discriminate.
Defined.

Lemma timeout_error_shapes_witness :
  fst (resume Sample.env (AwaitStatus 1 [0%nat] [0%nat]) Scenario.status_timed_out_9)
  = Ok (Settled (RejectedWith (ReasonError
          (WrappedError "sendCommand error: " (TimeoutError "{} after 10000ms"))))) /\
  resume Sample.env (Race [0%nat]) Scenario.response_timed_out_9
  = (Ok (Settled (RejectedWith (ReasonError (TimeoutError "{} after 10000ms")))),
     Scenario.response_timed_out_9).
Proof.
  destruct (timeout_error_shapes Sample.env 1 [0%nat] [0%nat]
              Scenario.status_timed_out_9 (TimeoutError "{} after 10000ms")) as [Hwrapped _].
  destruct (timeout_error_shapes Sample.env 1 [0%nat] [0%nat]
              Scenario.response_timed_out_9 (TimeoutError "{} after 10000ms")) as [_ Hplain].
  split.
  - apply (Hwrapped eq_refl).
  - apply (Hplain eq_refl).
Defined.

(** ** Registration, failures and the events that settle a call *)

Lemma lookup_absent (id : nat) (ws : list Waiter) :
  (forall x, In x ws -> ID x <> id) -> Registry.lookup id ws = None.
Proof.
  induction ws as [|y rest IH]; intros H; simpl; [reflexivity|].
  destruct (Nat.eqb (ID y) id) eqn:Hy.
  - apply Nat.eqb_eq in Hy. exfalso. apply (H y); [left; reflexivity | exact Hy].
  - apply IH. intros x Hx. apply H. right. exact Hx.
Qed.

Lemma lookup_app (id : nat) (ws ws' : list Waiter) :
  Registry.lookup id (ws ++ ws')
  = match Registry.lookup id ws with
    | Some x => Some x
    | None => Registry.lookup id ws'
    end.
Proof.
  induction ws as [|y rest IH]; simpl; [reflexivity|].
  destruct (Nat.eqb (ID y) id); [reflexivity | exact IH].
Qed.

Lemma fresh_ids_waitFor (m : WaitressMatcher) (timeout : Z) (w : Waitress) :
  fresh_ids w -> fresh_ids (snd (Registry.waitFor m timeout w)).
Proof.
  unfold fresh_ids, Registry.waitFor. simpl. intros H x Hx.
  apply in_app_or in Hx. destruct Hx as [Hx|[<-|[]]].
  - specialize (H x Hx). lia.
  - simpl. lia.
Qed.

Lemma fresh_ids_start (id : nat) (w : Waitress) :
  fresh_ids w -> fresh_ids (Registry.start id w).
Proof.
  unfold fresh_ids, Registry.start. simpl. intros H x Hx.
  apply in_map_iff in Hx. destruct Hx as [y [<- Hy]].
  specialize (H y Hy). destruct (Nat.eqb (ID y) id); exact H.
Qed.

Lemma fresh_ids_filter (keep : Waiter -> bool) (w : Waitress) (ps : list (nat * PromiseState)) :
  fresh_ids w ->
  fresh_ids {| waiters := filter keep (waiters w); currentID := currentID w; promises := ps |}.
Proof.
  unfold fresh_ids. simpl. intros H x Hx. apply filter_In in Hx. apply H, Hx.
Qed.

Lemma fresh_ids_remove (id : nat) (w : Waitress) :
  fresh_ids w -> fresh_ids (Registry.remove id w).
Proof. apply fresh_ids_filter. Qed.

Lemma fresh_ids_settle (id : nat) (s : PromiseState) (w : Waitress) :
  fresh_ids w -> fresh_ids (Registry.settle id s w).
Proof. apply fresh_ids_filter. Qed.

Lemma fresh_ids_remove_ids (ids : list nat) : forall w : Waitress,
  fresh_ids w -> fresh_ids (remove_ids ids w).
Proof.
  unfold remove_ids. induction ids as [|id rest IH]; intros w H; simpl; [exact H|].
  apply IH, fresh_ids_remove, H.
Qed.

Lemma fresh_ids_resolve (validate : ZiGateObject -> WaitressMatcher -> result bool)
  (o : ZiGateObject) (w w' : Waitress) :
  Registry.resolve validate o w = Ok w' -> fresh_ids w -> fresh_ids w'.
Proof.
  unfold Registry.resolve, rbind.
  destruct (Registry.first_match validate o (waiters w)) as [[id|]|]; intros H Hf;
    inversion H; subst; [apply fresh_ids_settle|]; exact Hf.
Qed.

Lemma fresh_ids_expire (format : WaitressMatcher -> Z -> string) (id : nat) (w : Waitress) :
  fresh_ids w -> fresh_ids (Registry.expire format id w).
Proof.
  unfold Registry.expire. intros H.
  destruct (Registry.lookup id (waiters w)) as [x|]; [|exact H].
  destruct (timer x); [apply fresh_ids_settle|]; exact H.
Qed.

(** One registration under a fresh ID: the new waiter is found under its
    ID with its timer running, every other lookup is as before. *)
Lemma register_started_lookup (m : WaitressMatcher) (timeout : option Z) (d : ZiGate) :
  fresh_ids (waitress d) ->
  let d' := snd (register_started m (timeout_or_default timeout) d) in
  fresh_ids (waitress d') /\
  currentID (waitress d') = S (currentID (waitress d)) /\
  Registry.lookup (currentID (waitress d)) (waiters (waitress d'))
  = Some (started_waiter (currentID (waitress d)) m timeout) /\
  (forall id, id <> currentID (waitress d) ->
              Registry.lookup id (waiters (waitress d'))
              = Registry.lookup id (waiters (waitress d))).
Proof.
  intros Hf. rewrite register_started_run. cbn [snd waitress].
  assert (Hnone : Registry.lookup (currentID (waitress d)) (waiters (waitress d)) = None).
  { apply lookup_absent. intros x Hx. specialize (Hf x Hx). lia. }
  split; [apply fresh_ids_start, fresh_ids_waitFor, Hf|].
  split; [reflexivity|].
  unfold Registry.start, Registry.waitFor. cbn [snd waiters currentID].
  split.
  - rewrite lookup_start, lookup_app, Hnone. simpl. rewrite !Nat.eqb_refl. reflexivity.
  - intros id Hid. rewrite lookup_start, lookup_app.
    destruct (Registry.lookup id (waiters (waitress d))) as [x|] eqn:Hx.
    + rewrite (lookup_ID _ _ _ Hx).
      destruct (Nat.eqb id (currentID (waitress d))) eqn:He; [|reflexivity].
      apply Nat.eqb_eq in He. contradiction.
    + simpl. destruct (Nat.eqb (currentID (waitress d)) id) eqn:He; [|reflexivity].
      apply Nat.eqb_eq in He. congruence.
Qed.

Lemma forEach_response_details (o : ZiGateObject) (extra : option jsval)
  (timeout : option Z) (rs : list ZiGateResponseMatcher) :
  forall (acc : list nat * list nat) (d : ZiGate),
  fresh_ids (waitress d) ->
  let d1 := snd (forEach_response o extra timeout rs acc d) in
  fresh_ids (waitress d1) /\
  currentID (waitress d1) = (currentID (waitress d) + List.length rs)%nat /\
  (forall id, (id < currentID (waitress d))%nat ->
              Registry.lookup id (waiters (waitress d1))
              = Registry.lookup id (waiters (waitress d))) /\
  (forall k r,
      nth_error rs k = Some r ->
      Registry.lookup (currentID (waitress d) + k) (waiters (waitress d1))
      = Some (started_waiter (currentID (waitress d) + k)
                {| ziGateObject := o; rules := r; extraParameters := extra |} timeout)).
Proof.
  induction rs as [|r rest IH]; intros acc d Hf; cbn zeta.
  - simpl. split; [exact Hf|]. split; [lia|]. split; [reflexivity|].
    intros k r Hk. destruct k; discriminate.
  - rewrite forEach_response_step.
    destruct (register_started_lookup
                {| ziGateObject := o; rules := r; extraParameters := extra |} timeout d Hf)
      as [Hf' [Hc' [Hnew Hold]]].
    set (d' := snd (register_started
                      {| ziGateObject := o; rules := r; extraParameters := extra |}
                      (timeout_or_default timeout) d)) in *.
    destruct (IH ((fst acc ++ [currentID (waitress d)])%list,
                  (snd acc ++ [currentID (waitress d)])%list) d' Hf')
      as [Hf1 [Hc1 [Hframe Hnth]]].
    split; [exact Hf1|]. split; [rewrite Hc1, Hc'; simpl; lia|]. split.
    + intros id Hid. rewrite Hframe by lia. apply Hold. lia.
    + intros k r' Hk. destruct k as [|k].
      * simpl in Hk. inversion Hk; subst r'. rewrite Nat.add_0_r.
        rewrite Hframe by lia. exact Hnew.
      * simpl in Hk. specialize (Hnth k r' Hk). rewrite Hc' in Hnth.
        replace (currentID (waitress d) + S k)%nat with (S (currentID (waitress d)) + k)%nat
          by lia.
        exact Hnth.
Qed.

Lemma sendCommand_register_snd {Frame} (env : Collaborators Frame)
  (o : ZiGateObject) (timeout : option Z) (extra : option jsval) (disableResponse : bool)
  (d : ZiGate) :
  snd (sendCommand_register env o timeout extra disableResponse d)
  = let d0 := snd ((if negb disableResponse
                    then match response (command o) with
                         | Some rs => forEach_response o extra timeout rs ([], [])
                         | None => mret ([], [])
                         end
                    else mret ([], [])) d) in
    if waitStatus_not_false o
    then snd (register_started (status_matcher env o) (timeout_or_default timeout) d0)
    else d0.
Proof.
  unfold sendCommand_register.
  assert (Hws : exists ws d0,
             (if negb disableResponse
              then match response (command o) with
                   | Some rs => forEach_response o extra timeout rs ([], [])
                   | None => mret ([], [])
                   end
              else mret ([], [])) d = (Ok ws, d0)).
  { destruct (negb disableResponse); [|unfold mret; eauto].
    destruct (response (command o)) as [rs|]; [|unfold mret; eauto].
    destruct (forEach_response_registers o extra timeout rs ([], []) d)
      as [d0 [ids [Hrun _]]]. eauto. }
  destruct Hws as [ws [d0 Hrun]].
  unfold mbind at 1. rewrite Hrun. cbn [snd].
  destruct (waitStatus_not_false o).
  - unfold mbind at 1. unfold status_matcher. rewrite status_register_run. reflexivity.
  - reflexivity.
Qed.

Lemma registration_effects_app (ids ids' : list nat) :
  registration_effects (ids ++ ids')
  = (registration_effects ids ++ registration_effects ids')%list.
Proof. unfold registration_effects. apply flat_map_app. Qed.

Lemma forEach_response_trace (o : ZiGateObject) (extra : option jsval)
  (timeout : option Z) (rs : list ZiGateResponseMatcher) :
  forall (acc : list nat * list nat) (d : ZiGate),
    trace (snd (forEach_response o extra timeout rs acc d))
    = (trace d
       ++ registration_effects (seq (currentID (waitress d)) (List.length rs)))%list.
Proof.
  induction rs as [|r rest IH]; intros acc d.
  - simpl. unfold mret. simpl. rewrite app_nil_r. reflexivity.
  - rewrite forEach_response_step, IH, register_started_run. simpl.
    rewrite <- app_assoc. reflexivity.
Qed.

(** The trace of lines 101-118: a [waitFor] and a [start()] for each
    response rule-set in turn, then for the status waiter. *)
Lemma sendCommand_register_trace {Frame} (env : Collaborators Frame)
  (o : ZiGateObject) (timeout : option Z) (extra : option jsval)
  (rs : list ZiGateResponseMatcher) (d : ZiGate) :
  response (command o) = Some rs ->
  sendCommand_register env o timeout extra false d
  = (Ok (seq (currentID (waitress d)) (List.length rs),
         seq (currentID (waitress d)) (List.length rs),
         if waitStatus_not_false o
         then Some (currentID (waitress d) + List.length rs)%nat
         else None),
     snd (sendCommand_register env o timeout extra false d)) /\
  trace (snd (sendCommand_register env o timeout extra false d))
  = (trace d
     ++ registration_effects
          (seq (currentID (waitress d)) (List.length rs)
           ++ if waitStatus_not_false o
              then [(currentID (waitress d) + List.length rs)%nat]
              else []))%list.
Proof.
  intros Hresp.
  destruct (sendCommand_register_registers env o timeout extra false d)
    as [d1 [ids [Hrun [Hreg Hlen]]]].
  simpl in Hlen. rewrite Hresp in Hlen.
  assert (Hids : ids = seq (currentID (waitress d)) (List.length rs)).
  { pose proof (reg_ids _ _ _ Hreg) as H.
    rewrite length_app, seq_app in H.
    apply (f_equal (firstn (List.length ids))) in H.
    rewrite firstn_app, firstn_all, Nat.sub_diag, firstn_O, app_nil_r in H.
    rewrite firstn_app in H. rewrite length_seq, Nat.sub_diag, firstn_O, app_nil_r in H.
    rewrite <- (length_seq (List.length ids) (currentID (waitress d))) in H at 1.
    rewrite firstn_all in H. rewrite <- Hlen. exact H. }
  split.
  - rewrite Hrun. simpl. rewrite Hlen, <- Hids. reflexivity.
  - rewrite sendCommand_register_snd. rewrite Hresp.
    pose proof (forEach_response_trace o extra timeout rs ([], []) d) as Ht.
    destruct (forEach_response_registers o extra timeout rs ([], []) d)
      as [d0 [ids0 [Hrun0 [Hreg0 Hlen0]]]].
    change (negb false) with true. cbv iota zeta.
    rewrite Hrun0 in Ht. rewrite Hrun0. cbn [snd] in Ht |- *.
    destruct (waitStatus_not_false o).
    + rewrite register_started_run. simpl.
      rewrite registration_effects_app, Ht, (reg_currentID _ _ _ Hreg0), Hlen0.
      simpl. rewrite <- app_assoc. reflexivity.
    + rewrite app_nil_r. exact Ht.
Qed.

(** C3, amended: with [disableResponse] false, one response waiter per
    declared rule-set is registered ahead of the write and its timer is
    started at once, as it is registered: a call that gets as far as the
    write adds to the trace a [waitFor] and a [start()] for each response
    rule-set in turn, then those of the status waiter if a status is
    awaited, and only then the write; the timers of the response waiters
    run in the state the call leaves; the racing step starts no timer and
    leaves the instance as it is. *)
Theorem response_waiters_start_at_registration {Frame} (env : Collaborators Frame)
  (cmdCode : Z) (cmdPayload : jsval) (timeout : option Z) (extra : option jsval)
  (d : ZiGate) (o : ZiGateObject) (frame : Frame) (buffer : list Z) (port : Port)
  (rs : list ZiGateResponseMatcher) :
  createRequest env cmdCode cmdPayload = Ok o ->
  toZiGateFrame env o = Ok frame ->
  toBuffer env frame = Ok buffer ->
  portWrite d = Some port ->
  response (command o) = Some rs ->
  let base := currentID (waitress d) in
  let ids := seq base (List.length rs) in
  let statusIds := if waitStatus_not_false o then [(base + List.length rs)%nat] else [] in
  trace (snd (sendCommand env cmdCode cmdPayload timeout extra false d))
  = (trace d
     ++ registration_effects (ids ++ statusIds)
     ++ EWrite port buffer
        :: match write env port buffer with
           | Ok _ => []
           | Throw e => [ELogError e]
           end)%list /\
  (forall id, In id ids ->
     timer_running id
       (waitress (snd (sendCommand env cmdCode cmdPayload timeout extra false d))) = true) /\
  fst (sendCommand env cmdCode cmdPayload timeout extra false d)
  = Ok match write env port buffer with
       | Ok _ => if waitStatus_not_false o
                 then AwaitStatus (base + List.length rs) ids ids
                 else Race ids
       | Throw e => Settled (RejectedWith (ReasonError
                               (WrappedError "sendCommand error: " e)))
       end /\
  (forall c d', snd (resume_race c d') = d').
Proof.
  intros Hreq Hframe Hbuf Hport Hresp base ids statusIds.
  destruct (sendCommand_register_trace env o timeout extra rs d Hresp) as [Hrun Htrace].
  destruct (sendCommand_register_registers env o timeout extra false d)
    as [d1 [ids1 [Hrun1 [Hreg _]]]].
  assert (Hd1 : snd (sendCommand_register env o timeout extra false d) = d1)
    by (rewrite Hrun1; reflexivity).
  rewrite Hd1 in Hrun, Htrace.
  assert (Hids1 : ids1 = ids).
  { rewrite Hrun1 in Hrun. inversion Hrun. reflexivity. }
  subst ids1.
  pose proof (reg_portWrite _ _ _ Hreg) as Hp. rewrite Hport in Hp.
  assert (Hsend :
            sendCommand env cmdCode cmdPayload timeout extra false d
            = (Ok match write env port buffer with
                  | Ok _ => if waitStatus_not_false o
                            then AwaitStatus (base + List.length rs) ids ids
                            else Race ids
                  | Throw e => Settled (RejectedWith (ReasonError
                                          (WrappedError "sendCommand error: " e)))
                  end,
               {| initialized := initialized d1; serialPort := serialPort d1;
                  socketPort := socketPort d1; portWrite := Some port;
                  waitress := waitress d1;
                  trace := (trace d1
                            ++ EWrite port buffer
                               :: match write env port buffer with
                                  | Ok _ => []
                                  | Throw e => [ELogError e]
                                  end)%list |})).
  { unfold sendCommand, mcatch, mbind at 1, lift. rewrite Hreq.
    unfold mbind at 1. rewrite Hframe. unfold mbind at 1. rewrite Hbuf.
    unfold mbind at 1. rewrite Hrun. unfold mbind at 1, port_write. unfold_m. simpl.
    rewrite Hp. simpl.
    destruct (write env port buffer) as [[]|e]; simpl.
    - destruct (waitStatus_not_false o); simpl; rewrite ?Hp; reflexivity.
    - unfold sendCommand_catch. unfold_m. simpl. rewrite ?Hp, <- app_assoc. reflexivity. }
  rewrite Hsend. cbn [fst snd trace waitress].
  split; [|split; [|split]].
  - rewrite Htrace, <- app_assoc. reflexivity.
  - intros id Hin. apply (reg_started _ _ _ Hreg). apply in_or_app. left. exact Hin.
  - reflexivity.
  - apply resume_race_keeps_state.
Qed.

Lemma response_waiters_start_at_registration_witness :
  trace (snd (sendCommand Sample.env 9 (VObj []) None None false Sample.opened))
  = [EWaitFor 0; EStart 0; EWaitFor 1; EStart 1; EWrite SerialPortHandle [9]] /\
  timer_running 0
    (waitress (snd (sendCommand Sample.env 9 (VObj []) None None false Sample.opened)))
  = true.
Proof.
  destruct (response_waiters_start_at_registration
              Sample.env 9 (VObj []) None None Sample.opened Sample.request_9 [9] [9]
              SerialPortHandle [[Sample.rule_code 32777]]
              eq_refl eq_refl eq_refl eq_refl eq_refl)
    as [Htrace [Hstarted _]].
  split; [exact Htrace|].
  apply Hstarted. left. reflexivity.
Defined.

(** X11: on a registry whose IDs are fresh, the registrations of lines
    101-118 leave, under consecutive IDs, one started waiter per declared
    rule-set, the k-th carrying the k-th rule-set, the request, the extra
    parameters and the timeout or its default, then the status waiter
    with the two status rules; every waiter registered before is found as
    it was. *)
Theorem sendCommand_register_details {Frame} (env : Collaborators Frame)
  (o : ZiGateObject) (timeout : option Z) (extra : option jsval) (d : ZiGate)
  (rs : list ZiGateResponseMatcher) :
  fresh_ids (waitress d) ->
  response (command o) = Some rs ->
  (forall k r,
      nth_error rs k = Some r ->
      Registry.lookup (currentID (waitress d) + k)
        (waiters (waitress (snd (sendCommand_register env o timeout extra false d))))
      = Some (started_waiter (currentID (waitress d) + k)
                {| ziGateObject := o; rules := r; extraParameters := extra |} timeout)) /\
  (waitStatus_not_false o = true ->
   Registry.lookup (currentID (waitress d) + List.length rs)
     (waiters (waitress (snd (sendCommand_register env o timeout extra false d))))
   = Some (started_waiter (currentID (waitress d) + List.length rs)
             (status_matcher env o) timeout)) /\
  (forall id,
      (id < currentID (waitress d))%nat ->
      Registry.lookup id
        (waiters (waitress (snd (sendCommand_register env o timeout extra false d))))
      = Registry.lookup id (waiters (waitress d))).
Proof.
  intros Hf Hrs. rewrite sendCommand_register_snd. cbn [negb]. rewrite Hrs. cbn zeta.
  destruct (forEach_response_details o extra timeout rs ([], []) d Hf)
    as [Hf0 [Hc0 [Hframe Hnth]]].
  set (d0 := snd (forEach_response o extra timeout rs ([], []) d)) in *.
  destruct (register_started_lookup (status_matcher env o) timeout d0 Hf0)
    as [_ [_ [Hnew Hold]]].
  destruct (waitStatus_not_false o).
  - split; [|split].
    + intros k r Hk. rewrite Hold.
      * apply Hnth, Hk.
      * assert (k < List.length rs)%nat by (apply nth_error_Some; congruence). lia.
    + intros _. rewrite <- Hc0. exact Hnew.
    + intros id Hid. rewrite Hold by lia. apply Hframe, Hid.
  - split; [|split].
    + exact Hnth.
    + discriminate.
    + exact Hframe.
Qed.

Lemma sendCommand_register_fresh {Frame} (env : Collaborators Frame)
  (o : ZiGateObject) (timeout : option Z) (extra : option jsval) (disableResponse : bool)
  (d : ZiGate) :
  fresh_ids (waitress d) ->
  fresh_ids (waitress (snd (sendCommand_register env o timeout extra disableResponse d))).
Proof.
  intros Hf. rewrite sendCommand_register_snd. cbn zeta.
  assert (Hf0 : fresh_ids
                  (waitress
                     (snd ((if negb disableResponse
                            then match response (command o) with
                                 | Some rs => forEach_response o extra timeout rs ([], [])
                                 | None => mret ([], [])
                                 end
                            else mret ([], [])) d)))).
  { destruct (negb disableResponse); [|exact Hf].
    destruct (response (command o)) as [rs|]; [|exact Hf].
    apply (forEach_response_details o extra timeout rs ([], []) d Hf). }
  destruct (waitStatus_not_false o); [|exact Hf0].
  apply (register_started_lookup (status_matcher env o) timeout _ Hf0).
Qed.

(** [sendCommand] never throws, and the registry it leaves is the one it
    started from or the one its registrations made. *)
Lemma sendCommand_waitress {Frame} (env : Collaborators Frame)
  (cmdCode : Z) (cmdPayload : jsval) (timeout : option Z) (extra : option jsval)
  (disableResponse : bool) (d : ZiGate) :
  exists c d',
    sendCommand env cmdCode cmdPayload timeout extra disableResponse d = (Ok c, d') /\
    (waitress d' = waitress d \/
     exists o,
       createRequest env cmdCode cmdPayload = Ok o /\
       waitress d'
       = waitress (snd (sendCommand_register env o timeout extra disableResponse d))).
Proof.
  unfold sendCommand, mcatch, mbind at 1, lift.
  destruct (createRequest env cmdCode cmdPayload) as [o|e];
    [|simpl; eexists; eexists; split; [reflexivity | left; reflexivity]].
  unfold mbind at 1.
  destruct (toZiGateFrame env o) as [frame|e];
    [|simpl; eexists; eexists; split; [reflexivity | left; reflexivity]].
  unfold mbind at 1.
  destruct (toBuffer env frame) as [buffer|e];
    [|simpl; eexists; eexists; split; [reflexivity | left; reflexivity]].
  unfold mbind at 1.
  destruct (sendCommand_register env o timeout extra disableResponse d) as [[reg|e] dreg]
    eqn:Hreg.
  2:{ simpl. eexists. eexists. split; [reflexivity|]. right. exists o.
      rewrite Hreg. split; reflexivity. }
  unfold mbind at 1, port_write. unfold_m. cbn [snd].
  destruct (portWrite dreg) as [port|]; simpl.
  2:{ eexists. eexists. split; [reflexivity|]. right. exists o.
      rewrite Hreg. split; reflexivity. }
  destruct (write env port buffer) as [[]|e]; simpl.
  2:{ eexists. eexists. split; [reflexivity|]. right. exists o.
      rewrite Hreg. split; reflexivity. }
  destruct (waitStatus_not_false o); destruct (snd reg); simpl;
    (eexists; eexists; split; [reflexivity|]; right; exists o; rewrite Hreg;
     split; reflexivity).
Qed.

(** X10: [sendCommand] never throws; when the request cannot be built or
    encoded it rejects with the wrapped error after logging it, and has
    registered no waiter and written nothing. *)
Theorem sendCommand_contains_failures {Frame} (env : Collaborators Frame)
  (cmdCode : Z) (cmdPayload : jsval) (timeout : option Z) (extra : option jsval)
  (disableResponse : bool) (d : ZiGate) :
  (exists c, fst (sendCommand env cmdCode cmdPayload timeout extra disableResponse d) = Ok c) /\
  (forall e,
      createRequest env cmdCode cmdPayload = Throw e \/
      (exists o, createRequest env cmdCode cmdPayload = Ok o /\
                 (toZiGateFrame env o = Throw e \/
                  exists frame, toZiGateFrame env o = Ok frame /\
                                toBuffer env frame = Throw e)) ->
      sendCommand env cmdCode cmdPayload timeout extra disableResponse d
      = (Ok (Settled (RejectedWith (ReasonError (WrappedError "sendCommand error: " e)))),
         {| initialized := initialized d; serialPort := serialPort d;
            socketPort := socketPort d; portWrite := portWrite d;
            waitress := waitress d; trace := (trace d ++ [ELogError e])%list |})).
Proof.
  split.
  - destruct (sendCommand_waitress env cmdCode cmdPayload timeout extra disableResponse d)
      as [c [d' [Hrun _]]].
    exists c. rewrite Hrun. reflexivity.
  - intros e H. unfold sendCommand, mcatch, mbind at 1, lift.
    destruct H as [Hreq | [o [Hreq [Hframe | [frame [Hframe Hbuf]]]]]]; rewrite Hreq.
    + reflexivity.
    + unfold mbind at 1. rewrite Hframe. reflexivity.
    + unfold mbind at 1. rewrite Hframe. unfold mbind at 1. rewrite Hbuf. reflexivity.
Qed.

Lemma resume_total {Frame} (env : Collaborators Frame) (c : SendCommand) (d : ZiGate) :
  exists c' d',
    resume env c d = (Ok c', d') /\
    (waitress d' = waitress d \/ exists ids, waitress d' = remove_ids ids (waitress d)).
Proof.
  unfold resume, resume_await, resume_race, sendCommand_after_status, sendCommand_catch.
  destruct c as [p ws ids|ws|s]; unfold_m; simpl.
  - destruct (Registry.promise p (waitress d)) as [|o|e]; simpl; eauto.
    destruct (get_member (payload o) "status") as [status|e]; simpl; eauto.
    destruct (negb (strict_eq_num status (E_SL_MSG_STATUS_SUCCESS env))); simpl.
    + rewrite remove_all_run. simpl. eexists. eexists.
      split; [reflexivity|]. right. exists ids. reflexivity.
    + destruct (Nat.eqb (List.length ws) 0); simpl; eauto.
      destruct (race ws (waitress d)); eauto.
  - destruct (race ws (waitress d)); eauto.
  - eauto.
Qed.

Lemma resume_fresh {Frame} (env : Collaborators Frame) (c : SendCommand) (d : ZiGate) :
  fresh_ids (waitress d) -> fresh_ids (waitress (snd (resume env c d))).
Proof.
  intros Hf. destruct (resume_total env c d) as [c' [d' [Hrun [Hw | [ids Hw]]]]];
    rewrite Hrun; cbn [snd]; rewrite Hw; [exact Hf | apply fresh_ids_remove_ids, Hf].
Qed.

(** What a chunk does to the registry: nothing when the codec fails or
    the registry throws, else what the settlement made, whatever the
    dispatch and the listeners do after it. *)
Lemma onSerialData_waitress {Frame} (env : Collaborators Frame) (buffer : list Z)
  (d : ZiGate) :
  waitress (snd (onSerialData env buffer d))
  = match decode env buffer with
    | Ok (_, o) =>
        match Registry.resolve waitressValidator o (waitress d) with
        | Ok w => w
        | Throw _ => waitress d
        end
    | Throw _ => waitress d
    end.
Proof.
  unfold onSerialData, decode, waitress_resolve, rbind. unfold_m.
  destruct (newZiGateFrame env buffer) as [frame|e1]; simpl; [|reflexivity].
  destruct (readMsgCode env frame) as [msgCode|e2]; simpl; [|reflexivity].
  destruct (fromZiGateFrame env frame) as [o|e3]; simpl; [|reflexivity].
  destruct (Registry.resolve waitressValidator o (waitress d)) as [w|e4]; simpl;
    [|reflexivity].
  match goal with
  | |- context [dispatch env msgCode o ?d1] =>
      destruct (dispatch_appends env msgCode o d1) as [added [Hsnd _]];
      destruct (dispatch env msgCode o d1) as [[[]|e5] d2]
  end; simpl in Hsnd; subst d2; reflexivity.
Qed.

Lemma handle_fresh {Frame} (env : Collaborators Frame) (ev : Event) (d : ZiGate) :
  fresh_ids (waitress d) -> fresh_ids (waitress (snd (handle env ev d))).
Proof.
  intros Hf. destruct ev as [buffer|id| |e|e|closeListener]; simpl.
  - rewrite onSerialData_waitress.
    destruct (decode env buffer) as [[msgCode o]|e]; [|exact Hf].
    destruct (Registry.resolve waitressValidator o (waitress d)) as [w|e] eqn:Hres;
      [|exact Hf].
    exact (fresh_ids_resolve _ _ _ _ Hres Hf).
  - unfold_m. simpl. apply fresh_ids_expire, Hf.
  - unfold onPortClose. unfold_m. simpl. destruct (listeners env EvClose); exact Hf.
  - exact Hf.
  - exact Hf.
  - unfold close, delivered, onPortClose. unfold_m. simpl.
    destruct (initialized d); simpl.
    + destruct (serialPort d); simpl.
      * destruct (asyncFlushAndClose env) as [[]|err]; simpl;
          [destruct closeListener; simpl|];
          destruct (listeners env EvClose); exact Hf.
      * destruct (socketPort d); simpl; destruct (listeners env EvClose); exact Hf.
    + destruct (listeners env EvClose); exact Hf.
Qed.

Lemma step_fresh {Frame} (env : Collaborators Frame) (cd : SendCommand * ZiGate)
  (ev : Event) :
  fresh_ids (waitress (snd cd)) -> fresh_ids (waitress (snd (step env cd ev))).
Proof.
  intros Hf. unfold step.
  pose proof (resume_fresh env (fst cd) _ (handle_fresh env ev (snd cd) Hf)) as Hr.
  destruct (resume env (fst cd) (snd (handle env ev (snd cd)))) as [[c'|e] d2]; exact Hr.
Qed.

(** X12: a call of [sendCommand] and every event that follows it keep the
    IDs of the registered waiters below the next ID to hand out, so that
    no registration reuses the ID of a waiter still registered. *)
Theorem fresh_ids_invariant {Frame} (env : Collaborators Frame)
  (cmdCode : Z) (cmdPayload : jsval) (timeout : option Z) (extra : option jsval)
  (disableResponse : bool) (d : ZiGate) (evs : list Event) :
  fresh_ids (waitress d) ->
  fresh_ids (waitress (snd (sendCommand env cmdCode cmdPayload timeout extra
                              disableResponse d))) /\
  fresh_ids (waitress (snd (sendCommand_run env cmdCode cmdPayload timeout extra
                              disableResponse d evs))).
Proof.
  intros Hf.
  assert (Hsend : fresh_ids (waitress (snd (sendCommand env cmdCode cmdPayload timeout
                                              extra disableResponse d)))).
  { destruct (sendCommand_waitress env cmdCode cmdPayload timeout extra disableResponse d)
      as [c [d' [Hrun [Hw | [o [_ Hw]]]]]]; rewrite Hrun; cbn [snd]; rewrite Hw.
    - exact Hf.
    - apply sendCommand_register_fresh, Hf. }
  split; [exact Hsend|].
  unfold sendCommand_run.
  destruct (sendCommand env cmdCode cmdPayload timeout extra disableResponse d)
    as [[c|e] d1]; cbn [snd] in *; [|exact Hsend].
  unfold run. revert c d1 Hsend.
  induction evs as [|ev rest IH]; intros c d1 Hd1; simpl; [exact Hd1|].
  pose proof (step_fresh env (c, d1) ev Hd1) as Hstep.
  destruct (step env (c, d1) ev) as [c2 d2]. apply IH. exact Hstep.
Qed.

Lemma promise_settle (id i : nat) (s : PromiseState) (w : Waitress) :
  Registry.promise id w = Pending ->
  Registry.promise i (Registry.settle id s w)
  = if Nat.eqb id i then s else Registry.promise i w.
Proof.
  intros Hp. unfold Registry.settle, Registry.promise in *. simpl. rewrite Hp.
  reflexivity.
Qed.

Lemma race_settle (id : nat) (s : PromiseState) (w : Waitress) (ws : list nat) :
  s <> Pending ->
  In id ws ->
  (forall i, In i ws -> Registry.promise i w = Pending) ->
  race ws (Registry.settle id s w) = settlement_of s.
Proof.
  intros Hs Hin Hpending.
  assert (Hid : Registry.promise id w = Pending) by (apply Hpending, Hin).
  induction ws as [|p rest IH]; [destruct Hin|].
  simpl. rewrite (promise_settle id p s w Hid).
  destruct (Nat.eqb id p) eqn:Hp.
  - destruct s; [contradiction | reflexivity | reflexivity].
  - rewrite (Hpending p (or_introl eq_refl)).
    apply IH.
    + destruct Hin as [Heq|Hin]; [|exact Hin].
      subst p. rewrite Nat.eqb_refl in Hp. discriminate.
    + intros i Hi. apply Hpending. right. exact Hi.
Qed.

Lemma resume_race_settles {Frame} (env : Collaborators Frame) (ws : list nat)
  (d : ZiGate) (s : Settlement) :
  race ws (waitress d) = Some s -> resume env (Race ws) d = (Ok (Settled s), d).
Proof.
  intros Hr. unfold resume, resume_await, resume_race. unfold_m. rewrite Hr. reflexivity.
Qed.

Lemma registered_settle (id : nat) (s : PromiseState) (w : Waitress) :
  Registry.registered id (Registry.settle id s w) = false.
Proof.
  unfold Registry.registered, Registry.settle. simpl.
  rewrite (lookup_filter_ID (fun i => negb (Nat.eqb i id))).
  rewrite Nat.eqb_refl. reflexivity.
Qed.

(** X13: while a call races its response waiters, none settled yet, a
    chunk that decodes to an object the registry matches to one of them
    resolves the call with that object and takes the waiter out of the
    registry, whatever the dispatch of the object does. *)
Theorem frame_resolves_race {Frame} (env : Collaborators Frame) (buffer : list Z)
  (msgCode : Z) (o : ZiGateObject) (id : nat) (ws : list nat) (d : ZiGate) :
  decode env buffer = Ok (msgCode, o) ->
  Registry.first_match waitressValidator o (waiters (waitress d)) = Ok (Some id) ->
  In id ws ->
  (forall i, In i ws -> Registry.promise i (waitress d) = Pending) ->
  fst (step env (Race ws, d) (SerialData buffer)) = Settled (Resolved o) /\
  Registry.registered id (waitress (snd (step env (Race ws, d) (SerialData buffer)))) = false.
Proof.
  intros Hdec Hmatch Hin Hpending.
  assert (Hw : waitress (snd (onSerialData env buffer d))
               = Registry.settle id (Fulfilled o) (waitress d)).
  { rewrite onSerialData_waitress, Hdec. unfold Registry.resolve. rewrite Hmatch.
    reflexivity. }
  assert (Hrace : race ws (waitress (snd (onSerialData env buffer d)))
                  = Some (Resolved o)).
  { rewrite Hw. apply (race_settle id (Fulfilled o)); [discriminate | exact Hin | exact Hpending]. }
  unfold step. cbn [fst snd handle].
  rewrite (resume_race_settles env ws _ _ Hrace). cbn [fst snd].
  split; [reflexivity|]. rewrite Hw. apply registered_settle.
Qed.

(** X14: while a call races its response waiters, none settled yet, the
    expiry of the timer of one of them rejects the call with the timeout
    error as [waitressTimeoutFormatter] words it, not wrapped, and takes
    the waiter out of the registry. *)
Theorem timer_rejects_race {Frame} (env : Collaborators Frame) (id : nat) (x : Waiter)
  (ws : list nat) (d : ZiGate) :
  Registry.lookup id (waiters (waitress d)) = Some x ->
  timer x = true ->
  In id ws ->
  (forall i, In i ws -> Registry.promise i (waitress d) = Pending) ->
  fst (step env (Race ws, d) (TimerExpired id))
  = Settled (RejectedWith (ReasonError
      (TimeoutError (waitressTimeoutFormatter env (waiter_matcher x)
                       (waiter_timeout x))))) /\
  Registry.registered id (waitress (snd (step env (Race ws, d) (TimerExpired id)))) = false.
Proof.
  intros Hx Ht Hin Hpending.
  assert (Hw : waitress (snd (handle env (TimerExpired id) d))
               = Registry.settle id
                   (Rejected (TimeoutError
                                (waitressTimeoutFormatter env (waiter_matcher x)
                                   (waiter_timeout x)))) (waitress d)).
  { simpl. unfold_m. simpl. unfold Registry.expire. rewrite Hx, Ht. reflexivity. }
  assert (Hrace : race ws (waitress (snd (handle env (TimerExpired id) d)))
                  = Some (RejectedWith (ReasonError
                       (TimeoutError (waitressTimeoutFormatter env (waiter_matcher x)
                                        (waiter_timeout x)))))).
  { rewrite Hw. apply (race_settle id (Rejected _)); [discriminate | exact Hin | exact Hpending]. }
  unfold step. cbn [fst snd].
  rewrite (resume_race_settles env ws _ _ Hrace). cbn [fst snd].
  split; [reflexivity|]. rewrite Hw. apply registered_settle.
Qed.

(** X15: for a call without response waiters that awaits its status, the
    chunk the registry matches to the status waiter settles the call in
    the same turn: resolved with the decoded object on the success code,
    rejected with it otherwise. *)
Theorem status_frame_settles_call {Frame} (env : Collaborators Frame) (buffer : list Z)
  (msgCode : Z) (o : ZiGateObject) (p : nat) (ids : list nat) (d : ZiGate)
  (status : jsval) :
  decode env buffer = Ok (msgCode, o) ->
  Registry.first_match waitressValidator o (waiters (waitress d)) = Ok (Some p) ->
  Registry.promise p (waitress d) = Pending ->
  get_member (payload o) "status" = Ok status ->
  fst (step env (AwaitStatus p [] ids, d) (SerialData buffer))
  = Settled (if strict_eq_num status (E_SL_MSG_STATUS_SUCCESS env)
             then Resolved o
             else RejectedWith (ReasonObject o)).
Proof.
  intros Hdec Hmatch Hpending Hget.
  assert (Hw : waitress (snd (onSerialData env buffer d))
               = Registry.settle p (Fulfilled o) (waitress d)).
  { rewrite onSerialData_waitress, Hdec. unfold Registry.resolve. rewrite Hmatch.
    reflexivity. }
  assert (Hp : Registry.promise p (waitress (snd (onSerialData env buffer d)))
               = Fulfilled o).
  { rewrite Hw, (promise_settle p p _ _ Hpending), Nat.eqb_refl. reflexivity. }
  unfold step. cbn [fst snd handle].
  destruct (strict_eq_num status (E_SL_MSG_STATUS_SUCCESS env)) eqn:Heq.
  - unfold resume, resume_await, sendCommand_after_status.
    unfold mbind at 1. unfold mbind at 1. unfold this at 1.
    rewrite Hp. unfold mcatch, mbind at 1, lift. rewrite Hget, Heq. reflexivity.
  - rewrite (resume_failed_status env p [] ids _ o status Hp Hget Heq). reflexivity.
Qed.

Lemma sendCommand_contains_failures_witness :
  sendCommand strict_env 2 (VObj []) None None false Sample.opened
  = (Ok (Settled (RejectedWith (ReasonError
           (WrappedError "sendCommand error: " (ExternalError "unknown command"))))),
     {| initialized := true; serialPort := true; socketPort := false;
        portWrite := Some SerialPortHandle; waitress := Registry.empty;
        trace := [ELogError (ExternalError "unknown command")] |}).
Proof.
  destruct (sendCommand_contains_failures strict_env 2 (VObj []) None None false
              Sample.opened) as [_ Hfail].
  apply (Hfail (ExternalError "unknown command")). left. reflexivity.
Defined.

Lemma fresh_ids_empty : fresh_ids Registry.empty.
Proof. intros x []. Qed.

Lemma sendCommand_register_details_witness :
  Registry.lookup 0
    (waiters (waitress (snd (sendCommand_register Sample.env Sample.request_9
                               (Some 0) None false Sample.opened))))
  = Some {| ID := 0;
            waiter_matcher := {| ziGateObject := Sample.request_9;
                                 rules := [Sample.rule_code 32777];
                                 extraParameters := None |};
            waiter_timeout := 10000; timer := true |}.
Proof.
  destruct (sendCommand_register_details Sample.env Sample.request_9 (Some 0) None
              Sample.opened [[Sample.rule_code 32777]] fresh_ids_empty eq_refl)
    as [Hnth _].
  apply (Hnth 0%nat [Sample.rule_code 32777] eq_refl).
Defined.

Lemma fresh_ids_invariant_witness :
  fresh_ids (waitress (snd (sendCommand_run Sample.env 9 (VObj []) None None false
                              Sample.opened
                              [SerialData [32768; 0; 9]; TimerExpired 0; CloseCalled true]))).
Proof.
  apply (fresh_ids_invariant Sample.env 9 (VObj []) None None false Sample.opened
           [SerialData [32768; 0; 9]; TimerExpired 0; CloseCalled true] fresh_ids_empty).
Defined.

Lemma frame_resolves_race_witness :
  fst (step Sample.env (Race [0%nat], Scenario.confirmed_9) (SerialData [32777]))
  = Settled (Resolved {| code := 32777; payload := VObj [];
                         command := {| response := None; waitStatus := None |} |}).
Proof.
  apply (frame_resolves_race Sample.env [32777] 32777 _ 0 [0%nat] Scenario.confirmed_9
           eq_refl eq_refl (or_introl eq_refl)).
  intros i [<-|[]]. reflexivity.
Defined.

Lemma timer_rejects_race_witness :
  fst (step Sample.env (Race [0%nat], Scenario.confirmed_9) (TimerExpired 0))
  = Settled (RejectedWith (ReasonError (TimeoutError "{} after 10000ms"))).
Proof.
  refine (proj1 (timer_rejects_race Sample.env 0 _ [0%nat] Scenario.confirmed_9
                   eq_refl eq_refl (or_introl eq_refl) _)).
  intros i [<-|[]]. reflexivity.
Defined.

Lemma status_frame_settles_call_witness :
  fst (step Sample.env (AwaitStatus 0 [] [], Sample.sent_2) (SerialData [32768; 0; 2]))
  = Settled (Resolved Sample.status_ok_2).
Proof.
  apply (status_frame_settles_call Sample.env [32768; 0; 2] 32768 Sample.status_ok_2
           0 [] Sample.sent_2 (VNum 0) eq_refl eq_refl eq_refl eq_refl).
Defined.

(** ** Dispatch, closing and opening *)

Lemma dispatch_emits {Frame} (env : Collaborators Frame) (msgCode : Z) (o : ZiGateObject)
  (d : ZiGate) :
  exists added,
    snd (dispatch env msgCode o d) =
    {| initialized := initialized d; serialPort := serialPort d;
       socketPort := socketPort d; portWrite := portWrite d;
       waitress := waitress d; trace := (trace d ++ added)%list |} /\
    (added = [] \/ exists ev, added = [EEmit ev]).
Proof.
  assert (Hnil : d = {| initialized := initialized d; serialPort := serialPort d;
                        socketPort := socketPort d; portWrite := portWrite d;
                        waitress := waitress d; trace := (trace d ++ [])%list |}).
  { rewrite app_nil_r. destruct d; reflexivity. }
  unfold dispatch. unfold_m.
  repeat match goal with
         | |- context [if ?c then _ else _] => destruct c
         | |- context [match ?r with Ok _ => _ | Throw _ => _ end] => destruct r; simpl
         | |- context [let (_, _) := ?r in _] => destruct r; simpl
         end;
    simpl;
    first [ exists []; split; [exact Hnil | left; reflexivity]
          | eexists [_]; split; [reflexivity | right; eexists; reflexivity] ].
Qed.

Lemma count_emit_app (t1 t2 : list Effect) :
  count_emit (t1 ++ t2) = (count_emit t1 + count_emit t2)%nat.
Proof.
  unfold count_emit. rewrite filter_app, length_app. reflexivity.
Qed.

Lemma first_match_total (o : ZiGateObject) (ws : list Waiter) :
  exists hit, Registry.first_match waitressValidator o ws = Ok hit.
Proof.
  induction ws as [|x rest [hit IH]]; simpl; [eauto|].
  rewrite waitressValidator_forallb. simpl.
  destruct (forallb _ _); eauto.
Qed.

(** With the validator of the driver the registry never throws on a
    decoded object. *)
Lemma resolve_total (o : ZiGateObject) (w : Waitress) :
  exists w', Registry.resolve waitressValidator o w = Ok w'.
Proof.
  unfold Registry.resolve. destruct (first_match_total o (waiters w)) as [hit Hhit].
  rewrite Hhit. simpl. eauto.
Qed.

(** X16: one chunk makes the driver emit at most one event; a chunk that
    decodes to a message other than a data indication, a leave indication
    and a device announce leaves the trace as it is. *)
Theorem onSerialData_emits_at_most_once {Frame} (env : Collaborators Frame)
  (buffer : list Z) (d : ZiGate) :
  (exists added,
      trace (snd (onSerialData env buffer d)) = (trace d ++ added)%list /\
      (count_emit added <= 1)%nat) /\
  (forall msgCode o,
      decode env buffer = Ok (msgCode, o) ->
      msgCode <> MessageCode_DataIndication env ->
      msgCode <> MessageCode_LeaveIndication env ->
      msgCode <> MessageCode_DeviceAnnounce env ->
      trace (snd (onSerialData env buffer d)) = trace d).
Proof.
  unfold onSerialData, decode, waitress_resolve, rbind. unfold_m.
  destruct (newZiGateFrame env buffer) as [frame|e1]; simpl.
  2:{ split; [exists [ELogError e1]; split; [reflexivity | unfold count_emit; simpl; lia]|].
      intros msgCode o H. discriminate. }
  destruct (readMsgCode env frame) as [msgCode|e2]; simpl.
  2:{ split; [exists [ELogError e2]; split; [reflexivity | unfold count_emit; simpl; lia]|].
      intros msgCode o H. discriminate. }
  destruct (fromZiGateFrame env frame) as [o|e3]; simpl.
  2:{ split; [exists [ELogError e3]; split; [reflexivity | unfold count_emit; simpl; lia]|].
      intros msgCode' o H. discriminate. }
  destruct (resolve_total o (waitress d)) as [w Hw]. rewrite Hw. simpl.
  split.
  - match goal with
    | |- context [dispatch env msgCode o ?d1] =>
        destruct (dispatch_emits env msgCode o d1) as [added [Hsnd Hone]];
        destruct (dispatch env msgCode o d1) as [[[]|e5] d2]
    end; simpl in Hsnd; subst d2; simpl.
    + exists added. split; [reflexivity|].
      destruct Hone as [->|[ev ->]]; unfold count_emit; simpl; lia.
    + exists (added ++ [ELogError e5])%list. split; [rewrite app_assoc; reflexivity|].
      rewrite count_emit_app.
      destruct Hone as [->|[ev ->]]; unfold count_emit; simpl; lia.
  - intros msgCode' o' H Hd Hl Ha. inversion H; subst msgCode' o'.
    unfold dispatch.
    rewrite (proj2 (Z.eqb_neq _ _) Hd), (proj2 (Z.eqb_neq _ _) Hl),
      (proj2 (Z.eqb_neq _ _) Ha).
    reflexivity.
Qed.

(** X17: for a chunk that decodes, the registry after [onSerialData] is
    the one the settlement of the decoded object made: the registry never
    throws on it, and nothing the dispatch or a listener does afterwards,
    a throw included, undoes the settlement. *)
Theorem settlement_survives_dispatch {Frame} (env : Collaborators Frame)
  (buffer : list Z) (msgCode : Z) (o : ZiGateObject) (d : ZiGate) :
  decode env buffer = Ok (msgCode, o) ->
  exists w,
    Registry.resolve waitressValidator o (waitress d) = Ok w /\
    waitress (snd (onSerialData env buffer d)) = w.
Proof.
  intros Hdec. destruct (resolve_total o (waitress d)) as [w Hw].
  exists w. split; [exact Hw|].
  rewrite onSerialData_waitress, Hdec, Hw. reflexivity.
Qed.

(** X18: a data indication of profile 0 and cluster 0x0013 announces the
    device with the little-endian 16-bit address read at offset 1 of the
    inner payload and the address the bytes 3 to 10 decode to; the network
    address is below 65536 when the bytes are bytes; an inner payload of
    fewer than three bytes throws a [RangeError] and emits nothing. *)
Theorem data_indication_announces {Frame} (env : Collaborators Frame)
  (o : ZiGateObject) (bytes : list Z) (d : ZiGate) :
  get_member (payload o) "profileID" = Ok (VNum 0) ->
  get_member (payload o) "clusterID" = Ok (VNum 19) ->
  get_member (payload o) "payload" = Ok (VBuf bytes) ->
  ((List.length bytes < 3)%nat ->
   dispatch env (MessageCode_DataIndication env) o d
   = (Throw (RangeError "The value of offset is out of range"), d)) /\
  (forall lo hi ieeeAddr,
      nth_error bytes 1 = Some lo ->
      nth_error bytes 2 = Some hi ->
      readIeeeAddr env (firstn 8 (skipn 3 bytes)) = Ok ieeeAddr ->
      trace (snd (dispatch env (MessageCode_DataIndication env) o d))
      = (trace d ++ [EEmit (EvDeviceAnnounce (VNum (lo + 256 * hi)) ieeeAddr)])%list /\
      (0 <= lo < 256 -> 0 <= hi < 256 -> 0 <= lo + 256 * hi < 65536)).
Proof.
  intros Hprofile Hcluster Hinner. split.
  - intros Hlen. unfold dispatch. rewrite Z.eqb_refl. unfold_m.
    rewrite Hprofile, Hcluster, Hinner. simpl.
    destruct bytes as [|b0 [|b1 [|b2 rest]]]; simpl in Hlen; try lia; reflexivity.
  - intros lo hi ieeeAddr Hlo Hhi Hieee. split; [|intros; lia].
    unfold dispatch. rewrite Z.eqb_refl. unfold_m.
    rewrite Hprofile, Hcluster, Hinner. simpl strict_eq_num. cbv iota.
    unfold readUInt16LE, slice. rewrite Hlo, Hhi.
    replace (11 - 3)%nat with 8%nat by reflexivity.
    rewrite Hieee. destruct (listeners env _); reflexivity.
Qed.

Lemma close_uninitialized {Frame} (env : Collaborators Frame) (closeListener : bool)
  (d : ZiGate) :
  initialized d = false ->
  close env closeListener d
  = (listeners env EvClose,
     {| initialized := initialized d; serialPort := serialPort d;
        socketPort := socketPort d; portWrite := portWrite d;
        waitress := waitress d;
        trace := (trace d ++ [EQueueClear; EEmit EvClose])%list |}).
Proof.
  intros Hi. unfold close. unfold_m. simpl. rewrite Hi. simpl.
  rewrite <- app_assoc. destruct (listeners env EvClose) as [[]|e]; reflexivity.
Qed.

Lemma close_state {Frame} (env : Collaborators Frame) (closeListener : bool)
  (d : ZiGate) :
  initialized (snd (close env closeListener d)) = false /\
  serialPort (snd (close env closeListener d)) = serialPort d /\
  socketPort (snd (close env closeListener d)) = socketPort d /\
  portWrite (snd (close env closeListener d)) = (if initialized d then None else portWrite d) /\
  waitress (snd (close env closeListener d)) = waitress d.
Proof.
  unfold close, delivered, onPortClose. unfold_m. simpl.
  destruct (initialized d) eqn:Hi; simpl.
  - destruct (serialPort d); simpl.
    + destruct (asyncFlushAndClose env) as [[]|err]; simpl;
        [destruct closeListener; simpl|];
        destruct (listeners env EvClose); simpl; auto.
    + destruct (socketPort d); simpl; destruct (listeners env EvClose); simpl; auto.
  - destruct (listeners env EvClose); simpl; auto.
Qed.

(** X19: after [close()], successful or not, [initialized] is false and
    the registry is as it was; a second [close()] only clears the queue
    and emits the close event again: it releases no transport, changes no
    field and throws only what a listener throws. *)
Theorem close_twice {Frame} (env : Collaborators Frame)
  (closeListener closeListener' : bool) (d : ZiGate) :
  initialized (snd (close env closeListener d)) = false /\
  waitress (snd (close env closeListener d)) = waitress d /\
  fst (close env closeListener' (snd (close env closeListener d))) = listeners env EvClose /\
  trace (snd (close env closeListener' (snd (close env closeListener d))))
  = (trace (snd (close env closeListener d)) ++ [EQueueClear; EEmit EvClose])%list /\
  portWrite (snd (close env closeListener' (snd (close env closeListener d))))
  = portWrite (snd (close env closeListener d)).
Proof.
  destruct (close_state env closeListener d) as [Hi [_ [_ [_ Hw]]]].
  rewrite (close_uninitialized env closeListener' (snd (close env closeListener d)) Hi).
  repeat split; auto.
Qed.

(** What [sendCommand] does on an instance without a port, once the
    request is built and encoded. *)
Lemma sendCommand_no_port {Frame} (env : Collaborators Frame)
  (cmdCode : Z) (cmdPayload : jsval) (timeout : option Z) (extra : option jsval)
  (disableResponse : bool) (d : ZiGate) (o : ZiGateObject) (frame : Frame)
  (buffer : list Z) :
  portWrite d = None ->
  createRequest env cmdCode cmdPayload = Ok o ->
  toZiGateFrame env o = Ok frame ->
  toBuffer env frame = Ok buffer ->
  exists added,
    fst (sendCommand env cmdCode cmdPayload timeout extra disableResponse d)
    = Ok (Settled (RejectedWith (ReasonError
            (WrappedError "sendCommand error: "
               (TypeError "Cannot read properties of undefined (reading 'write')"))))) /\
    trace (snd (sendCommand env cmdCode cmdPayload timeout extra disableResponse d))
    = (trace d ++ added)%list /\
    forall p b, ~ In (EWrite p b) added.
Proof.
  intros Hport Hreq Hframe Hbuf.
  destruct (sendCommand_register_registers env o timeout extra disableResponse d)
    as [dreg [ids [Hrun [Hreg _]]]].
  assert (Hsend :
            sendCommand env cmdCode cmdPayload timeout extra disableResponse d
            = (Ok (Settled (RejectedWith (ReasonError
                     (WrappedError "sendCommand error: "
                        (TypeError "Cannot read properties of undefined (reading 'write')"))))),
               {| initialized := initialized dreg; serialPort := serialPort dreg;
                  socketPort := socketPort dreg; portWrite := None;
                  waitress := waitress dreg;
                  trace := (trace dreg
                            ++ [ELogError (TypeError
                                  "Cannot read properties of undefined (reading 'write')")])%list |})).
  { unfold sendCommand, mcatch, mbind at 1, lift. rewrite Hreq.
    unfold mbind at 1. rewrite Hframe. unfold mbind at 1. rewrite Hbuf.
    unfold mbind at 1. rewrite Hrun. unfold mbind at 1, port_write. unfold_m. simpl.
    pose proof (reg_portWrite _ _ _ Hreg) as Hp. rewrite Hport in Hp. rewrite Hp.
    unfold sendCommand_catch. unfold_m. simpl. rewrite Hp. reflexivity. }
  rewrite Hsend. cbn [fst snd trace].
  destruct (reg_no_write _ _ _ Hreg) as [added [Hadded Hnow]].
  exists (added ++ [ELogError (TypeError
                      "Cannot read properties of undefined (reading 'write')")])%list.
  split; [reflexivity|]. split.
  - rewrite Hadded, app_assoc. reflexivity.
  - intros p b Hin. apply in_app_or in Hin. destruct Hin as [Hin|[Hin|[]]].
    + exact (Hnow p b Hin).
    + discriminate.
Qed.

(** X20: after [close()] on an initialized driver every command whose
    request builds and encodes is rejected with the wrapped [TypeError]
    of the missing port, and writes nothing. *)
Theorem sendCommand_after_close {Frame} (env : Collaborators Frame)
  (cmdCode : Z) (cmdPayload : jsval) (timeout : option Z) (extra : option jsval)
  (disableResponse : bool) (closeListener : bool) (d : ZiGate) (o : ZiGateObject)
  (frame : Frame) (buffer : list Z) :
  initialized d = true ->
  createRequest env cmdCode cmdPayload = Ok o ->
  toZiGateFrame env o = Ok frame ->
  toBuffer env frame = Ok buffer ->
  exists added,
    fst (sendCommand env cmdCode cmdPayload timeout extra disableResponse
           (snd (close env closeListener d)))
    = Ok (Settled (RejectedWith (ReasonError
            (WrappedError "sendCommand error: "
               (TypeError "Cannot read properties of undefined (reading 'write')"))))) /\
    trace (snd (sendCommand env cmdCode cmdPayload timeout extra disableResponse
                  (snd (close env closeListener d))))
    = (trace (snd (close env closeListener d)) ++ added)%list /\
    forall p b, ~ In (EWrite p b) added.
Proof.
  intros Hi Hreq Hframe Hbuf.
  apply (sendCommand_no_port env cmdCode cmdPayload timeout extra disableResponse
           (snd (close env closeListener d)) o frame buffer); auto.
  destruct (close_state env closeListener d) as [_ [_ [_ [Hp _]]]].
  rewrite Hp, Hi. reflexivity.
Qed.

(** With a port on the instance and the request built and encoded, the
    frame is handed to that port, whatever the write answers. *)
Lemma sendCommand_reaches_port {Frame} (env : Collaborators Frame)
  (cmdCode : Z) (cmdPayload : jsval) (timeout : option Z) (extra : option jsval)
  (disableResponse : bool) (d : ZiGate) (o : ZiGateObject) (frame : Frame)
  (buffer : list Z) (port : Port) :
  portWrite d = Some port ->
  createRequest env cmdCode cmdPayload = Ok o ->
  toZiGateFrame env o = Ok frame ->
  toBuffer env frame = Ok buffer ->
  In (EWrite port buffer)
    (trace (snd (sendCommand env cmdCode cmdPayload timeout extra disableResponse d))).
Proof.
  intros Hport Hreq Hframe Hbuf.
  destruct (sendCommand_register_registers env o timeout extra disableResponse d)
    as [dreg [ids [Hrun [Hreg _]]]].
  pose proof (reg_portWrite _ _ _ Hreg) as Hpr. rewrite Hport in Hpr.
  unfold sendCommand, mcatch, mbind at 1, lift. rewrite Hreq.
  unfold mbind at 1. rewrite Hframe. unfold mbind at 1. rewrite Hbuf.
  unfold mbind at 1. rewrite Hrun. unfold mbind at 1, port_write. unfold_m. simpl.
  rewrite Hpr. simpl.
  destruct (write env port buffer) as [[]|e]; simpl.
  - destruct (waitStatus_not_false o); simpl;
      apply in_or_app; right; left; reflexivity.
  - apply in_or_app. left. apply in_or_app. right. left. reflexivity.
Qed.

(** X21: after a close event of the transport, [close()] emits the close
    event a second time, releases nothing and leaves [portWrite] set, so
    that a later command still hands its frame to that port. *)
Theorem sendCommand_after_port_close {Frame} (env : Collaborators Frame)
  (cmdCode : Z) (cmdPayload : jsval) (timeout : option Z) (extra : option jsval)
  (disableResponse : bool) (closeListener : bool) (d : ZiGate) (o : ZiGateObject)
  (frame : Frame) (buffer : list Z) (port : Port) :
  portWrite d = Some port ->
  createRequest env cmdCode cmdPayload = Ok o ->
  toZiGateFrame env o = Ok frame ->
  toBuffer env frame = Ok buffer ->
  trace (snd (close env closeListener (snd (onPortClose env d))))
  = (trace d ++ [EEmit EvClose; EQueueClear; EEmit EvClose])%list /\
  In (EWrite port buffer)
    (trace (snd (sendCommand env cmdCode cmdPayload timeout extra disableResponse
                   (snd (close env closeListener (snd (onPortClose env d))))))).
Proof.
  intros Hport Hreq Hframe Hbuf.
  assert (Hpc : snd (onPortClose env d)
                = {| initialized := false; serialPort := serialPort d;
                     socketPort := socketPort d; portWrite := portWrite d;
                     waitress := waitress d;
                     trace := (trace d ++ [EEmit EvClose])%list |}).
  { unfold onPortClose. unfold_m. simpl. destruct (listeners env EvClose); reflexivity. }
  assert (Hclose : snd (close env closeListener (snd (onPortClose env d)))
                   = {| initialized := false; serialPort := serialPort d;
                        socketPort := socketPort d; portWrite := portWrite d;
                        waitress := waitress d;
                        trace := (trace d ++ [EEmit EvClose; EQueueClear; EEmit EvClose])%list |}).
  { rewrite Hpc. rewrite close_uninitialized by reflexivity. simpl.
    rewrite <- app_assoc. reflexivity. }
  rewrite Hclose. split; [reflexivity|].
  apply (sendCommand_reaches_port env cmdCode cmdPayload timeout extra disableResponse
           _ o frame buffer port); auto.
Qed.

(** X22: when [asyncOpen()] fails, [openSerialPort] throws that error with
    [initialized] false and without the close and error listeners bound,
    but leaves [portWrite] on the serial port: [close()] then releases
    nothing, and a later command still hands its frame to the port. *)
Theorem failed_serial_open_keeps_port {Frame} (env : Collaborators Frame) (op : Opener)
  (s : Session) (error : JsError)
  (cmdCode : Z) (cmdPayload : jsval) (timeout : option Z) (extra : option jsval)
  (disableResponse : bool) (closeListener : bool) (o : ZiGateObject) (frame : Frame)
  (buffer : list Z) :
  asyncOpen op = Throw error ->
  createRequest env cmdCode cmdPayload = Ok o ->
  toZiGateFrame env o = Ok frame ->
  toBuffer env frame = Ok buffer ->
  fst (openSerialPort op s) = Throw error /\
  initialized (driver (snd (openSerialPort op s))) = false /\
  bound (snd (openSerialPort op s)) = (bound s ++ [OnData])%list /\
  trace (snd (close env closeListener (driver (snd (openSerialPort op s)))))
  = (trace (driver s) ++ [EQueueClear; EEmit EvClose])%list /\
  In (EWrite SerialPortHandle buffer)
    (trace (snd (sendCommand env cmdCode cmdPayload timeout extra disableResponse
                   (snd (close env closeListener (driver (snd (openSerialPort op s)))))))).
Proof.
  intros Hopen Hreq Hframe Hbuf.
  unfold openSerialPort. rewrite Hopen. cbn [fst snd driver bound].
  split; [reflexivity|]. split; [reflexivity|]. split; [reflexivity|].
  rewrite close_uninitialized by reflexivity. cbn [snd trace with_initialized with_port].
  split; [reflexivity|].
  apply (sendCommand_reaches_port env cmdCode cmdPayload timeout extra disableResponse
           _ o frame buffer SerialPortHandle); auto.
Qed.

Lemma once_close_unbound (ls : list Listener) :
  existsb is_once_close (filter (fun l => negb (is_once_close l)) ls) = false.
Proof.
  induction ls as [|l rest IH]; simpl; [reflexivity|].
  destruct (is_once_close l) eqn:Hl; simpl; [exact IH|rewrite Hl; exact IH].
Qed.

(** X23: [open()] on a path that is not a TCP path, with [asyncOpen()]
    succeeding, leaves the driver initialized on the serial port with the
    data, close and error listeners bound; [close()] after it flushes and
    closes the port once and leaves the driver uninitialized without a
    port, whether the release succeeds or not.  When the release
    succeeds the close event is emitted twice, by [onPortClose] as the
    port closes and by [close()] itself, and the close listener is bound
    no more; when the release fails it is emitted once. *)
Theorem serial_open_then_close {Frame} (env : Collaborators Frame) (op : Opener)
  (s : Session) :
  isTcpPath op (config_path s) = false ->
  asyncOpen op = Ok tt ->
  fst (open op s) = Ok tt /\
  initialized (driver (snd (open op s))) = true /\
  portWrite (driver (snd (open op s))) = Some SerialPortHandle /\
  bound (snd (open op s)) = (bound s ++ [OnData; OnceClose; OnceError])%list /\
  initialized (driver (snd (close_session env (snd (open op s))))) = false /\
  portWrite (driver (snd (close_session env (snd (open op s))))) = None /\
  trace (driver (snd (close_session env (snd (open op s)))))
  = (trace (driver s) ++ [EQueueClear; EFlushAndClose]
       ++ match asyncFlushAndClose env with
          | Ok _ => [EEmit EvClose; EEmit EvClose]
          | Throw _ => [EEmit EvClose]
          end)%list /\
  existsb is_once_close (bound (snd (close_session env (snd (open op s)))))
  = negb (is_ok (asyncFlushAndClose env)).
Proof.
  intros Htcp Hopen. unfold open, openSerialPort. rewrite Htcp, Hopen.
  cbn [fst snd driver bound].
  split; [reflexivity|]. split; [reflexivity|]. split; [reflexivity|].
  split; [rewrite <- app_assoc; reflexivity|].
  unfold close_session. cbn [fst snd driver bound].
  assert (Hb : existsb is_once_close ((bound s ++ [OnData]) ++ [OnceClose; OnceError])
               = true).
  { rewrite existsb_app. simpl. apply orb_true_r. }
  rewrite Hb.
  unfold close_then_event, close_event_delivered, serial_close_delivered,
    socket_close_delivered, close, delivered, onPortClose.
  unfold_m. simpl.
  destruct (asyncFlushAndClose env) as [[]|err]; simpl;
    destruct (listeners env EvClose); simpl;
    (split; [reflexivity|]); (split; [reflexivity|]);
    (split; [rewrite <- !app_assoc; reflexivity|]);
    first [exact Hb | apply once_close_unbound].
Qed.

(** X24: on a driver that was constructed and never opened, every command
    whose request builds and encodes is rejected with the wrapped
    [TypeError] of the missing port, and writes nothing. *)
Theorem unopened_driver_rejects {Frame} (env : Collaborators Frame)
  (p : string) (serialPortOptions : SerialPortOptions)
  (cmdCode : Z) (cmdPayload : jsval) (timeout : option Z) (extra : option jsval)
  (disableResponse : bool) (o : ZiGateObject) (frame : Frame) (buffer : list Z) :
  createRequest env cmdCode cmdPayload = Ok o ->
  toZiGateFrame env o = Ok frame ->
  toBuffer env frame = Ok buffer ->
  exists added,
    fst (sendCommand env cmdCode cmdPayload timeout extra disableResponse
           (driver (new_ZiGate p serialPortOptions)))
    = Ok (Settled (RejectedWith (ReasonError
            (WrappedError "sendCommand error: "
               (TypeError "Cannot read properties of undefined (reading 'write')"))))) /\
    trace (snd (sendCommand env cmdCode cmdPayload timeout extra disableResponse
                  (driver (new_ZiGate p serialPortOptions))))
    = added /\
    forall port b, ~ In (EWrite port b) added.
Proof.
  intros Hreq Hframe Hbuf.
  destruct (sendCommand_no_port env cmdCode cmdPayload timeout extra disableResponse
              (driver (new_ZiGate p serialPortOptions)) o frame buffer
              eq_refl Hreq Hframe Hbuf) as [added [Hfst [Htrace Hnow]]].
  exists added. auto.
Qed.

Lemma socket_steps_opening (evs : list SocketEvent) : forall (s : Session) (to : OpenPromise),
  opening s = Some to -> to <> OpenPending ->
  opening (fold_left socket_step evs s) = Some to.
Proof.
  induction evs as [|ev rest IH]; intros s to Hs Hto; simpl; [exact Hs|].
  apply IH; [|exact Hto].
  destruct ev; simpl; rewrite Hs; destruct to; try contradiction; reflexivity.
Qed.

Lemma socket_steps_frame (evs : list SocketEvent) : forall s : Session,
  portWrite (driver (fold_left socket_step evs s)) = portWrite (driver s) /\
  waitress (driver (fold_left socket_step evs s)) = waitress (driver s) /\
  bound (fold_left socket_step evs s) = bound s /\
  exists added,
    trace (driver (fold_left socket_step evs s)) = (trace (driver s) ++ added)%list /\
    count_emit added = 0%nat.
Proof.
  induction evs as [|ev rest IH]; intros s; simpl.
  - repeat split. exists []. rewrite app_nil_r. split; reflexivity.
  - destruct (IH (socket_step s ev)) as [Hp [Hw [Hb [added [Ht Hc]]]]].
    rewrite Hp, Hw, Hb, Ht. destruct ev as [|error]; simpl.
    + repeat split. exists added. split; [reflexivity | exact Hc].
    + repeat split. exists (ELogError error :: added). split.
      * unfold onSocketError. unfold_m. simpl. rewrite <- app_assoc. reflexivity.
      * exact Hc.
Qed.

Lemma socket_steps_initialized (rest : list SocketEvent) :
  forall (s : Session) (first : SocketEvent),
  initialized (driver (fold_left socket_step (first :: rest) s))
  = match List.last rest first with
    | SocketReady => true
    | SocketFailed _ => false
    end.
Proof.
  intros s first.
  destruct (exists_last (l := first :: rest)) as [front [final Hsplit]]; [discriminate|].
  assert (Hlast : List.last rest first = final).
  { assert (H : List.last (first :: rest) first = List.last rest first)
      by (destruct rest; reflexivity).
    rewrite <- H, Hsplit. apply last_last. }
  rewrite Hlast, Hsplit, fold_left_app. simpl. destruct final; reflexivity.
Qed.

(** X25: after [openSocketPort], whatever ready and error events the
    socket raises, the first of them settles the promise of [open()] for
    good (resolved on ready, rejected on error), the last of them decides
    [initialized], [portWrite] stays on the socket and no event is
    emitted. *)
Theorem socket_open_settles_once (op : Opener) (s : Session) (host : string) (port : Z)
  (first : SocketEvent) (rest : list SocketEvent) :
  parseTcpPath op (config_path s) = Ok (host, port) ->
  let opened := snd (openSocketPort op s) in
  let final := fold_left socket_step (first :: rest) opened in
  opening opened = Some OpenPending /\
  opening final = Some match first with
                       | SocketReady => OpenResolved
                       | SocketFailed _ => OpenRejected
                       end /\
  initialized (driver final) = match List.last rest first with
                               | SocketReady => true
                               | SocketFailed _ => false
                               end /\
  portWrite (driver final) = Some SocketPortHandle /\
  exists added,
    trace (driver final) = (trace (driver s) ++ added)%list /\ count_emit added = 0%nat.
Proof.
  intros Hparse. cbn zeta. unfold openSocketPort. rewrite Hparse. cbn [snd].
  split; [reflexivity|].
  split; [|split; [apply socket_steps_initialized|]].
  - cbn [fold_left].
    apply socket_steps_opening; destruct first; simpl; congruence.
  - match goal with
    | |- context [fold_left socket_step ?l ?s0] =>
        destruct (socket_steps_frame l s0) as [Hp [_ [_ [added [Ht Hc]]]]]
    end.
    rewrite Hp, Ht. split; [reflexivity|]. exists added. split; [reflexivity | exact Hc].
Qed.

Lemma onSerialData_emits_at_most_once_witness :
  trace (snd (onSerialData Sample.env [99] Sample.sent_9)) = trace Sample.sent_9.
Proof.
  destruct (onSerialData_emits_at_most_once Sample.env [99] Sample.sent_9) as [_ Hquiet].
  apply (Hquiet 99 {| code := 99; payload := VObj [];
                      command := {| response := None; waitStatus := None |} |} eq_refl);
    discriminate.
Defined.

Lemma settlement_survives_dispatch_witness :
  Registry.registered 0 (waitress leave_waiter_driver) = true /\
  Registry.registered 0
    (waitress (snd (onSerialData throwing_listeners_env [32840] leave_waiter_driver)))
  = false.
Proof.
  split; [reflexivity|].
  destruct (settlement_survives_dispatch throwing_listeners_env [32840] 32840
              {| code := 32840; payload := VObj [];
                 command := {| response := None; waitStatus := None |} |}
              leave_waiter_driver eq_refl) as [w [Hres Hw]].
  rewrite Hw. vm_compute in Hres. inversion Hres. reflexivity.
Defined.

Lemma data_indication_announces_witness :
  trace (snd (dispatch Sample.env 32770
                (announce_indication [0; 52; 18; 1; 2; 3; 4; 5; 6; 7; 8]) Sample.opened))
  = [EEmit (EvDeviceAnnounce (VNum 4660) (VStr "0x0000000000000000"))].
Proof.
  destruct (data_indication_announces Sample.env
              (announce_indication [0; 52; 18; 1; 2; 3; 4; 5; 6; 7; 8])
              [0; 52; 18; 1; 2; 3; 4; 5; 6; 7; 8] Sample.opened
              eq_refl eq_refl eq_refl) as [_ Hemit].
  apply (Hemit 52 18 (VStr "0x0000000000000000") eq_refl eq_refl eq_refl).
Defined.

Lemma sendCommand_after_close_witness :
  fst (sendCommand Sample.env 9 (VObj []) None None false
         (snd (close Sample.env true Sample.opened)))
  = Ok (Settled (RejectedWith (ReasonError
          (WrappedError "sendCommand error: "
             (TypeError "Cannot read properties of undefined (reading 'write')"))))).
Proof.
  destruct (sendCommand_after_close Sample.env 9 (VObj []) None None false
              true Sample.opened Sample.request_9 [9] [9] eq_refl eq_refl eq_refl eq_refl)
    as [added [Hfst _]].
  exact Hfst.
Defined.

Lemma sendCommand_after_port_close_witness :
  In (EWrite SerialPortHandle [9])
    (trace (snd (sendCommand Sample.env 9 (VObj []) None None false
                   (snd (close Sample.env false
                           (snd (onPortClose Sample.env Sample.opened))))))).
Proof.
  apply (sendCommand_after_port_close Sample.env 9 (VObj []) None None false
           false Sample.opened Sample.request_9 [9] [9] SerialPortHandle
           eq_refl eq_refl eq_refl eq_refl).
Defined.

Lemma failed_serial_open_keeps_port_witness :
  fst (openSerialPort failing_opener sample_session)
  = Throw (ExternalError "cannot open port") /\
  In (EWrite SerialPortHandle [9])
    (trace (snd (sendCommand Sample.env 9 (VObj []) None None false
                   (snd (close Sample.env false
                           (driver (snd (openSerialPort failing_opener sample_session)))))))).
Proof.
  destruct (failed_serial_open_keeps_port Sample.env failing_opener sample_session
              (ExternalError "cannot open port") 9 (VObj []) None None false
              false Sample.request_9 [9] [9] eq_refl eq_refl eq_refl eq_refl)
    as [Hthrow [_ [_ [_ Hwrite]]]].
  split; [exact Hthrow | exact Hwrite].
Defined.

Lemma serial_open_then_close_witness :
  initialized (driver (snd (open working_opener sample_session))) = true /\
  trace (driver (snd (close_session releasing_env
                        (snd (open working_opener sample_session)))))
  = [EQueueClear; EFlushAndClose; EEmit EvClose; EEmit EvClose] /\
  bound (snd (close_session releasing_env (snd (open working_opener sample_session))))
  = [OnData; OnceError].
Proof.
  destruct (serial_open_then_close releasing_env working_opener sample_session
              eq_refl eq_refl) as [_ [Hinit [_ [_ [_ [_ [Htrace _]]]]]]].
  split; [exact Hinit|]. split; [exact Htrace | reflexivity].
Defined.

Lemma unopened_driver_rejects_witness :
  fst (sendCommand Sample.env 9 (VObj []) None None false (driver sample_session))
  = Ok (Settled (RejectedWith (ReasonError
          (WrappedError "sendCommand error: "
             (TypeError "Cannot read properties of undefined (reading 'write')"))))).
Proof.
  destruct (unopened_driver_rejects Sample.env "/dev/ttyUSB0"
              {| options_baudRate := VUndefined |} 9 (VObj []) None None false
              Sample.request_9 [9] [9] eq_refl eq_refl eq_refl)
    as [added [Hfst _]].
  exact Hfst.
Defined.

Lemma socket_open_settles_once_witness :
  opening (fold_left socket_step
             [SocketReady; SocketFailed (ExternalError "connection reset")]
             (snd (openSocketPort socket_opener sample_session)))
  = Some OpenResolved /\
  initialized (driver (fold_left socket_step
                         [SocketReady; SocketFailed (ExternalError "connection reset")]
                         (snd (openSocketPort socket_opener sample_session))))
  = false.
Proof.
  destruct (socket_open_settles_once socket_opener sample_session "192.168.1.2" 9999
              SocketReady [SocketFailed (ExternalError "connection reset")] eq_refl)
    as [_ [Hopening [Hinit _]]].
  split; [exact Hopening | exact Hinit].
Defined.

(** ** After the race *)

Lemma step_settled {Frame} (env : Collaborators Frame) (s : Settlement) (d : ZiGate)
  (ev : Event) :
  step env (Settled s, d) ev = (Settled s, snd (handle env ev d)).
Proof. reflexivity. Qed.

(** Once a call is settled, no chunk, timer or lifecycle event that
    follows changes its settlement. *)
Lemma settled_call_stays_settled {Frame} (env : Collaborators Frame) (s : Settlement)
  (evs : list Event) (d : ZiGate) :
  fst (run env (Settled s, d) evs) = Settled s.
Proof.
  unfold run. revert d. induction evs as [|ev rest IH]; intros d; simpl.
  - reflexivity.
  - rewrite step_settled. apply IH.
Qed.

Lemma lookup_settle_other (id i : nat) (s : PromiseState) (w : Waitress) :
  i <> id ->
  Registry.lookup i (waiters (Registry.settle id s w)) = Registry.lookup i (waiters w).
Proof.
  intros Hne. unfold Registry.settle. simpl.
  rewrite (lookup_filter_ID (fun k => negb (Nat.eqb k id))).
  destruct (Nat.eqb i id) eqn:He; [|reflexivity].
  apply Nat.eqb_eq in He. contradiction.
Qed.

(** X26: when a chunk resolves a raced call through one of its response
    waiters, the call removes none of the others: every other waiter,
    the losers of the race among them, stays registered as it was, its
    timer running if it was. *)
Theorem race_losers_stay_registered {Frame} (env : Collaborators Frame) (buffer : list Z)
  (msgCode : Z) (o : ZiGateObject) (id : nat) (ws : list nat) (d : ZiGate) :
  decode env buffer = Ok (msgCode, o) ->
  Registry.first_match waitressValidator o (waiters (waitress d)) = Ok (Some id) ->
  In id ws ->
  (forall i, In i ws -> Registry.promise i (waitress d) = Pending) ->
  forall i,
    i <> id ->
    Registry.lookup i (waiters (waitress (snd (step env (Race ws, d) (SerialData buffer)))))
    = Registry.lookup i (waiters (waitress d)) /\
    Registry.promise i (waitress (snd (step env (Race ws, d) (SerialData buffer))))
    = Registry.promise i (waitress d).
Proof.
  intros Hdec Hmatch Hin Hpending i Hne.
  assert (Hw : waitress (snd (onSerialData env buffer d))
               = Registry.settle id (Fulfilled o) (waitress d)).
  { rewrite onSerialData_waitress, Hdec. unfold Registry.resolve. rewrite Hmatch.
    reflexivity. }
  assert (Hrace : race ws (waitress (snd (onSerialData env buffer d)))
                  = Some (Resolved o)).
  { rewrite Hw. apply (race_settle id (Fulfilled o)); [discriminate | exact Hin | exact Hpending]. }
  unfold step. cbn [fst snd handle].
  rewrite (resume_race_settles env ws _ _ Hrace). cbn [fst snd]. rewrite Hw.
  split.
  - apply lookup_settle_other. exact Hne.
  - rewrite (promise_settle id i _ _ (Hpending id Hin)).
    destruct (Nat.eqb id i) eqn:He; [|reflexivity].
    apply Nat.eqb_eq in He. congruence.
Qed.

Lemma race_losers_stay_registered_witness :
  Registry.registered 1
    (waitress (snd (step Sample.env (Race [0%nat; 1%nat], two_responses_driver)
                      (SerialData [32774]))))
  = true.
Proof.
  destruct (race_losers_stay_registered Sample.env [32774] 32774 _ 0 [0%nat; 1%nat]
              two_responses_driver eq_refl eq_refl (or_introl eq_refl)) with (i := 1%nat)
    as [Hl _].
  - intros i [<-|[<-|[]]]; reflexivity.
  - discriminate.
  - unfold Registry.registered. rewrite Hl. reflexivity.
Defined.
